(** * RFO: the job queue, the engine wrappers and the experiment task

  A shallow embedding of [backend/worker.py], of the two engine entry
  points of [backend/engine.py] and of the request and task code of
  [backend/api.py], followed by the properties of the job lifecycle.

  Conventions.
  - A Python [float] is an IEEE-754 binary64 value, [spec_float] with
    precision 53 and maximal exponent 1024.
  - A call that may raise returns a [PyResult]; a method of an object with
    mutable state returns its result together with the new state.
  - Every [with self.lock:] block of the job queue is one atomic function
    of the queue state; the lock itself carries no further state. What
    the threads do to a queue is a trace of such steps, in any order;
    [enqueue_job], which takes the lock twice, is three steps of it.
  - The request handlers and the task are given as they run when no other
    thread takes a step in between; what the task does to the job queue
    are its calls of [update_job_status], which are steps of a trace.
  - [datetime] values are counted in microseconds since the epoch. *)

From Stdlib Require Import ZArith String List Bool.
From Stdlib Require Import Floats.SpecFloat.
From stdpp Require Import gmap strings list fin_maps.

Open Scope string_scope.

(** ** Python values shared by all modules *)
Module Py.

Definition float : Type := spec_float.
Definition prec : Z := 53.
Definition emax : Z := 1024.

(** [float(z)] for an integer literal. *)
Definition float_of_Z (z : Z) : float := binary_normalize prec emax z 0 false.

(** A decimal literal [n/d], correctly rounded. *)
Definition float_lit (n d : Z) : float :=
  SFdiv prec emax (float_of_Z n) (float_of_Z d).

Definition fadd : float -> float -> float := SFadd prec emax.
Definition fsub : float -> float -> float := SFsub prec emax.
Definition fmul : float -> float -> float := SFmul prec emax.
Definition fdiv : float -> float -> float := SFdiv prec emax.
Definition fneg : float -> float := SFopp.
(** [x <= y] on floats: false as soon as one side is NaN. *)
Definition fle : float -> float -> bool := SFleb.

Definition f0_0 : float := S754_zero false.
Definition f1_0 : float := Eval vm_compute in float_of_Z 1.

(** The other literals of the code. *)
Definition f2 : float := Eval vm_compute in float_of_Z 2.
Definition f6 : float := Eval vm_compute in float_of_Z 6.
Definition f10 : float := Eval vm_compute in float_of_Z 10.
Definition f2500 : float := Eval vm_compute in float_of_Z 2500.
Definition f5000 : float := Eval vm_compute in float_of_Z 5000.
Definition f200 : float := Eval vm_compute in float_of_Z 200.
Definition f450 : float := Eval vm_compute in float_of_Z 450.
Definition f4000 : float := Eval vm_compute in float_of_Z 4000.
Definition f0_5 : float := Eval vm_compute in float_lit 1 2.
Definition f0_1 : float := Eval vm_compute in float_lit 1 10.
Definition f0_3 : float := Eval vm_compute in float_lit 3 10.
Definition f0_6 : float := Eval vm_compute in float_lit 6 10.
Definition f0_9 : float := Eval vm_compute in float_lit 9 10.

(** An exception object: the name of its class, whether the class derives
    from [Exception] (and is therefore caught by [except Exception]) or
    only from [BaseException] ([SystemExit], [KeyboardInterrupt]), and
    [str(e)]. *)
Record PyExc : Type := mkExc {
  exc_type : string;
  exc_is_Exception : bool;
  exc_str : string
}.

Inductive PyResult (A : Type) : Type :=
| Return (a : A)
| Raise (e : PyExc).
Arguments Return {A} a.
Arguments Raise {A} e.

Definition RuntimeError (msg : string) : PyExc := mkExc "RuntimeError" true msg.
Definition KeyError (key : string) : PyExc :=
  mkExc "KeyError" true ("'" +:+ key +:+ "'").
Definition AttributeError (msg : string) : PyExc := mkExc "AttributeError" true msg.
Definition TypeError (msg : string) : PyExc := mkExc "TypeError" true msg.
Definition IntegrityError (msg : string) : PyExc := mkExc "IntegrityError" true msg.
Definition PendingRollbackError (msg : string) : PyExc :=
  mkExc "PendingRollbackError" true msg.
Definition ValueError (msg : string) : PyExc := mkExc "ValueError" true msg.

(** Neither an infinity nor a NaN. *)
Definition is_finite (x : float) : bool :=
  match x with
  | S754_zero _ | S754_finite _ _ _ => true
  | S754_infinity _ | S754_nan => false
  end.

End Py.
Import Py.

(** ** backend/worker.py *)
Module Worker.
Section Queue.

(** What is handed to the pool: the callable with its arguments. *)
Context {Task : Type}.

(** A [concurrent.futures.Future]: not done yet, finished by returning, or
    finished by raising. *)
Inductive FutureState : Type :=
| Pending
| Returned
| Raised (e : PyExc).

Definition done (f : FutureState) : bool :=
  match f with Pending => false | _ => true end.

(** [future.result()] of a done future. *)
Definition result (f : FutureState) : PyResult unit :=
  match f with Raised e => Raise e | _ => Return tt end.

Record WorkItem : Type := mkWorkItem {
  wi_func : Task;
  wi_job_id : string;
  wi_state : FutureState
}.

(** The [ThreadPoolExecutor]: every work item submitted so far (a future is
    named by its position) and the shutdown flag. *)
Record Executor : Type := mkExecutor {
  futures : list WorkItem;
  is_shutdown : bool
}.

(** One entry of [self.jobs]. *)
Record Job : Type := mkJob {
  status : string;
  progress : float;
  message : string;
  created_at : Z;
  future : option nat
}.

Record JobQueue : Type := mkJobQueue {
  executor : Executor;
  jobs : gmap string Job
}.

(** [JobQueue()] *)
Definition new_queue : JobQueue := mkJobQueue (mkExecutor [] false) ∅.

Definition set_jobs (q : JobQueue) (m : gmap string Job) : JobQueue :=
  mkJobQueue (executor q) m.

(** [self.executor.submit(func, job_id, *args, **kwargs)] *)
Definition submit (func : Task) (job_id : string) (ex : Executor)
  : PyResult nat * Executor :=
  if is_shutdown ex
  then (Raise (RuntimeError "cannot schedule new futures after shutdown"), ex)
  else (Return (length (futures ex)),
        mkExecutor (futures ex ++ [mkWorkItem func job_id Pending]) false).

(** First locked block of [enqueue_job]. *)
Definition register_job (job_id : string) (now : Z) (q : JobQueue) : JobQueue :=
  set_jobs q (<[job_id := mkJob "queued" f0_0 "Job queued" now None]> (jobs q)).

(** Second locked block of [enqueue_job]:
    [self.jobs[job_id]['future'] = future; self.jobs[job_id]['status'] = 'running']. *)
Definition attach_future (job_id : string) (h : nat) (q : JobQueue)
  : PyResult unit * JobQueue :=
  match jobs q !! job_id with
  | None => (Raise (KeyError job_id), q)
  | Some j =>
      (Return tt,
       set_jobs q (<[job_id := mkJob "running" (progress j) (message j)
                                     (created_at j) (Some h)]> (jobs q)))
  end.

Definition enqueue_job (job_id : string) (func : Task) (now : Z) (q : JobQueue)
  : PyResult unit * JobQueue :=
  let q1 := register_job job_id now q in
  match submit func job_id (executor q1) with
  | (Raise e, ex) => (Raise e, mkJobQueue ex (jobs q1))
  | (Return h, ex) => attach_future job_id h (mkJobQueue ex (jobs q1))
  end.

(** The dictionary returned by [get_job_status]. *)
Record StatusDict : Type := mkStatusDict {
  sd_status : string;
  sd_progress : float;
  sd_message : string
}.

Definition status_of (j : Job) : StatusDict :=
  mkStatusDict (status j) (progress j) (message j).

(** [job['status'] in ['completed', 'failed']] *)
Definition is_terminal (s : string) : bool :=
  String.eqb s "completed" || String.eqb s "failed".

(** [job['future'] and job['future'].done()]; a handle that names no work
    item does not occur, [submit] being the only source of handles. *)
Definition future_state (ex : Executor) (f : option nat) : FutureState :=
  match f with
  | None => Pending
  | Some h => match futures ex !! h with
              | Some w => wi_state w
              | None => Pending
              end
  end.

Definition get_job_status (job_id : string) (q : JobQueue)
  : PyResult StatusDict * JobQueue :=
  match jobs q !! job_id with
  | None => (Return (mkStatusDict "not_found" f0_0 "Job not found"), q)
  | Some job =>
      let fs := future_state (executor q) (future job) in
      if done fs && negb (is_terminal (status job)) then
        match result fs with
        | Return _ =>
            let job' :=
              if negb (String.eqb (status job) "failed")
              then mkJob "completed" f1_0 "Job completed"
                         (created_at job) (future job)
              else job in
            (Return (status_of job'), set_jobs q (<[job_id := job']> (jobs q)))
        | Raise e =>
            if exc_is_Exception e then
              let job' := mkJob "failed" f0_0 ("Job failed: " +:+ exc_str e)
                                (created_at job) (future job) in
              (Return (status_of job'), set_jobs q (<[job_id := job']> (jobs q)))
            else (Raise e, q)
        end
      else (Return (status_of job), q)
  end.

Definition update_job_status (job_id status : string) (progress : float)
    (message : string) (q : JobQueue) : PyResult unit * JobQueue :=
  match jobs q !! job_id with
  | Some j =>
      (Return tt,
       set_jobs q (<[job_id := mkJob status progress message
                                     (created_at j) (future j)]> (jobs q)))
  | None => (Return tt, q)
  end.

(** [cutoff_time]: [now] minus [max_age_hours * 3600] seconds. The
    difference and the comparison with it are exact here; the code takes
    them on the floats that [timestamp()] returns, so that a record
    created within a rounding error of the cutoff can fall on either
    side. *)
Definition cutoff_time (max_age_hours now : Z) : Z :=
  (now - max_age_hours * 3600 * 1000000)%Z.

Definition to_remove (cutoff : Z) (j : Job) : bool :=
  is_terminal (status j) && (created_at j <? cutoff)%Z.

Definition cleanup_completed_jobs (max_age_hours now : Z) (q : JobQueue)
  : PyResult unit * JobQueue :=
  let cutoff := cutoff_time max_age_hours now in
  (Return tt,
   set_jobs q (filter (λ kv, to_remove cutoff (snd kv) = false) (jobs q))).

(** [self.executor.shutdown(wait=True)]: no new submissions from here on.
    That the call returns only after the pending work items have finished
    orders the [OpFinish] steps before it and changes no state. *)
Definition shutdown (q : JobQueue) : PyResult unit * JobQueue :=
  (Return tt, mkJobQueue (mkExecutor (futures (executor q)) true) (jobs q)).

(** A worker thread reaches the end of the work item behind handle [h]:
    the future is set once, to the way the call ended. *)
Definition worker_finish (h : nat) (r : PyResult unit) (q : JobQueue) : JobQueue :=
  match futures (executor q) !! h with
  | Some w =>
      if done (wi_state w) then q
      else
        let st := match r with Return _ => Returned | Raise e => Raised e end in
        mkJobQueue
          (mkExecutor (<[h := mkWorkItem (wi_func w) (wi_job_id w) st]>
                         (futures (executor q)))
                      (is_shutdown (executor q)))
          (jobs q)
  | None => q
  end.

(** The future that [enqueue_job] holds when it enters its second locked
    block is the one [submit] returned to it: a work item of the pool that
    was submitted for this identifier. *)
Definition submitted_for (job_id : string) (h : nat) (ex : Executor) : bool :=
  match futures ex !! h with
  | Some w => String.eqb (wi_job_id w) job_id
  | None => false
  end.

(** What can happen to a queue, from any thread, one atomic step each: a
    block of a method that holds [self.lock], a call of the pool, or the end
    of a work item. [get_job_status], [update_job_status] and
    [cleanup_completed_jobs] are one locked block each. [enqueue_job] is
    three steps, between which the other threads, the submitted task among
    them, take theirs: the first locked block ([OpRegister]), the submission
    outside the lock ([OpSubmit]) and the second locked block ([OpAttach],
    with the future the submission returned; with any other future it is
    no step of the code and leaves the queue as it is). [OpEnqueue] is a
    call of [enqueue_job] during which no other thread takes a step. *)
Inductive Op : Type :=
| OpEnqueue (job_id : string) (func : Task) (now : Z)
| OpGetStatus (job_id : string)
| OpUpdate (job_id status : string) (progress : float) (message : string)
| OpCleanup (max_age_hours now : Z)
| OpShutdown
| OpFinish (h : nat) (r : PyResult unit)
| OpRegister (job_id : string) (now : Z)
| OpSubmit (job_id : string) (func : Task)
| OpAttach (job_id : string) (h : nat).

Definition step (q : JobQueue) (op : Op) : JobQueue :=
  match op with
  | OpEnqueue job_id func now => snd (enqueue_job job_id func now q)
  | OpGetStatus job_id => snd (get_job_status job_id q)
  | OpUpdate job_id st pr msg => snd (update_job_status job_id st pr msg q)
  | OpCleanup age now => snd (cleanup_completed_jobs age now q)
  | OpShutdown => snd (shutdown q)
  | OpFinish h r => worker_finish h r q
  | OpRegister job_id now => register_job job_id now q
  | OpSubmit job_id func =>
      mkJobQueue (snd (submit func job_id (executor q))) (jobs q)
  | OpAttach job_id h =>
      if submitted_for job_id h (executor q)
      then snd (attach_future job_id h q)
      else q
  end.

Definition run (ops : list Op) (q : JobQueue) : JobQueue := fold_left step ops q.

(** Operations by what they can do to the record of [id]: the first
    locked block of [enqueue_job] called with [id] creates it; both locked
    blocks of [enqueue_job] and [update_job_status] called with [id] write
    it; a cleanup may delete it. *)
Definition enqueues (id : string) (op : Op) : bool :=
  match op with
  | OpEnqueue id' _ _ => String.eqb id' id
  | OpRegister id' _ => String.eqb id' id
  | _ => false
  end.

Definition overwrites (id : string) (op : Op) : bool :=
  match op with
  | OpEnqueue id' _ _ => String.eqb id' id
  | OpUpdate id' _ _ _ => String.eqb id' id
  | OpRegister id' _ => String.eqb id' id
  | OpAttach id' _ => String.eqb id' id
  | _ => false
  end.

Definition writes_status (id st : string) (op : Op) : bool :=
  match op with
  | OpUpdate id' st' _ _ => String.eqb id' id && String.eqb st' st
  | _ => false
  end.

Definition is_cleanup (op : Op) : bool :=
  match op with OpCleanup _ _ => true | _ => false end.

End Queue.
Arguments WorkItem : clear implicits.
Arguments Executor : clear implicits.
Arguments JobQueue : clear implicits.
Arguments Op : clear implicits.
End Worker.

(** ** backend/engine.py: [simulate] and [optimize_fuel_mixture] *)
Module Engine.

(** One input row: O/F ratio, chamber pressure, combustion temperature and
    specific impulse. *)
Definition Row : Type := float * float * float * float.
Definition Vec3 : Type := float * float * float.

Definition f300 : float := Eval vm_compute in float_of_Z 300.
Definition f3000 : float := Eval vm_compute in float_of_Z 3000.

Record Params : Type := mkParams {
  O_F_ratio : float;
  pressure : float;
  temp : float;
  isp : float
}.

Record SimulationResult : Type := mkSimulationResult {
  thrust : float;
  efficiency : float;
  temperature_ratio : float;
  sim_params : Params
}.

(** [scipy.optimize.OptimizeResult], the fields the code reads. *)
Record OptimizeResult : Type := mkOptimizeResult {
  res_success : bool;
  res_x : Vec3;
  res_fun : float;
  res_message : string
}.

(** The arguments of one [minimize(...)] call. *)
Record MinimizeCall : Type := mkMinimizeCall {
  mc_fun : Vec3 -> PyResult float;
  mc_x0 : Vec3;
  mc_bounds : list (float * float);
  mc_constraints : list (Vec3 -> PyResult float)
}.

(** The dictionary returned by [optimize_fuel_mixture], by its ['success']
    entry. *)
Inductive Optimization : Type :=
| OptSuccess (optimal_params : Params) (predicted_thrust optimization_value : float)
| OptFailure (error : string).

Definition success (o : Optimization) : bool :=
  match o with OptSuccess _ _ _ => true | OptFailure _ => false end.

Definition bounds : list (float * float) :=
  Eval vm_compute in
    [(float_of_Z 2, float_of_Z 6); (float_of_Z 1, float_of_Z 10);
     (float_of_Z 2500, float_of_Z 5000)].

Definition initial_guess : Vec3 :=
  Eval vm_compute in (float_lit 7 2, float_of_Z 5, float_of_Z 3000).

Section WithModel.

(** The fitted regressor and the library minimizer are not part of the
    repository: [predict model row] is [model.predict(df)[0]] on a
    one-row frame, [minimize] is [scipy.optimize.minimize]. Each function
    below calls [predict] at most once; nothing is said about two calls
    on the same row giving the same value. *)
Context {Model : Type}.
Variable predict : Model -> Row -> PyResult float.
Variable minimize : MinimizeCall -> PyResult OptimizeResult.

Definition simulate (params : Params) (model : Model) : PyResult SimulationResult :=
  match predict model (O_F_ratio params, pressure params, temp params, isp params) with
  | Raise e => Raise e
  | Return predicted_thrust =>
      Return (mkSimulationResult
                predicted_thrust
                (fdiv predicted_thrust (fmul (pressure params) (isp params)))
                (fdiv (temp params) f3000)
                params)
  end.

(** [alpha * (-pred_thrust) + (1 - alpha) * T] *)
Definition objective (model : Model) (alpha : float) (x : Vec3) : PyResult float :=
  let '(O_F, p, T) := x in
  match predict model (O_F, p, T, f300) with
  | Raise e => Raise e
  | Return pred_thrust =>
      Return (fadd (fmul alpha (fneg pred_thrust)) (fmul (fsub f1_0 alpha) T))
  end.

(** [lambda x: max_temp - x[2]]; [max_temp] is [None] when the request
    carried an explicit null. *)
Definition temp_constraint (max_temp : option float) (x : Vec3) : PyResult float :=
  match max_temp with
  | Some m => Return (fsub m (snd x))
  | None => Raise (TypeError "unsupported operand type(s) for -: 'NoneType' and 'float'")
  end.

Definition minimize_call (model : Model) (alpha : float) (max_temp : option float)
  : MinimizeCall :=
  mkMinimizeCall (objective model alpha) initial_guess bounds
                 [temp_constraint max_temp].

(** The result is paired with the log of the [minimize] calls made. *)
Definition optimize_fuel_mixture (model : Model) (alpha : float)
    (max_temp : option float) : list MinimizeCall * PyResult Optimization :=
  let call := minimize_call model alpha max_temp in
  ([call],
   match minimize call with
   | Raise e => Raise e
   | Return result =>
       if res_success result then
         let '(x0, x1, x2) := res_x result in
         let optimal_params := mkParams x0 x1 x2 f300 in
         match simulate optimal_params model with
         | Raise e => Raise e
         | Return simulation_result =>
             Return (OptSuccess optimal_params (thrust simulation_result)
                                (res_fun result))
         end
       else Return (OptFailure (res_message result))
   end).

End WithModel.
End Engine.

(** ** backend/api.py (with the two tables of backend/database.py) *)
Module Api.
Import Worker Engine.

(** [ExperimentParams], as [params.dict()] hands it to the task. *)
Record ExperimentParams : Type := mkExperimentParams {
  ep_O_F_ratio : float;
  ep_pressure : float;
  ep_temp : float;
  ep_isp : float;
  ep_alpha : option float;
  ep_max_temp : option float;
  ep_tune_model : option bool
}.

(** A field of the JSON body of a request, as far as it is of the
    declared type: left out, [null], or a value of that type. Bodies with
    a value of another type are not covered. *)
Inductive Field (A : Type) : Type :=
| Absent
| Null
| Value (a : A).
Arguments Absent {A}.
Arguments Null {A}.
Arguments Value {A} a.

Record RunBody : Type := mkRunBody {
  b_O_F_ratio : Field float;
  b_pressure : Field float;
  b_temp : Field float;
  b_isp : Field float;
  b_alpha : Field float;
  b_max_temp : Field float;
  b_tune_model : Field bool
}.

(** [Field(ge=lo, le=hi)] *)
Definition in_range (lo hi x : float) : bool := fle lo x && fle x hi.

(** A required [float] field with [ge] and [le]. *)
Definition required_float (lo hi : float) (f : Field float) : option float :=
  match f with
  | Value x => if in_range lo hi x then Some x else None
  | _ => None
  end.

(** An [Optional[float]] field with a default, [ge] and [le]: the bounds
    are checked on a value that is given, not on [null] or the default. *)
Definition optional_bounded (default lo hi : float) (f : Field float)
  : option (option float) :=
  match f with
  | Absent => Some (Some default)
  | Null => Some None
  | Value x => if in_range lo hi x then Some (Some x) else None
  end.

(** An [Optional] field with a default and no constraint. *)
Definition optional_field {A : Type} (default : A) (f : Field A) : option A :=
  match f with
  | Absent => Some default
  | Null => None
  | Value x => Some x
  end.

(** A field that carries a value outside [[lo, hi]]. *)
Definition outside (lo hi : float) (f : Field float) : bool :=
  match f with
  | Value x => negb (in_range lo hi x)
  | _ => false
  end.

(** Validation of the request body against the declarations of
    [ExperimentParams]; [None] is the validation error. *)
Definition validate (b : RunBody) : option ExperimentParams :=
  O_F_ratio ← required_float f2 f6 (b_O_F_ratio b);
  pressure ← required_float f1_0 f10 (b_pressure b);
  temp ← required_float f2500 f5000 (b_temp b);
  isp ← required_float f200 f450 (b_isp b);
  alpha ← optional_bounded f0_5 f0_0 f1_0 (b_alpha b);
  Some (mkExperimentParams O_F_ratio pressure temp isp alpha
          (optional_field f4000 (b_max_temp b))
          (optional_field false (b_tune_model b))).

Record JobResponse : Type := mkJobResponse {
  jr_job_id : string;
  jr_status : string;
  jr_message : string
}.

(** A number that [json.dumps(..., allow_nan=False)] renders. *)
Definition json_compliant (f : Field float) : bool :=
  match f with
  | Value x => is_finite x
  | _ => true
  end.

(** Every number of the body is finite. *)
Definition body_finite (b : RunBody) : bool :=
  json_compliant (b_O_F_ratio b) && json_compliant (b_pressure b)
  && json_compliant (b_temp b) && json_compliant (b_isp b)
  && json_compliant (b_alpha b) && json_compliant (b_max_temp b).

Definition is_absent {A : Type} (f : Field A) : bool :=
  match f with Absent => true | _ => false end.

(** The body of a 422 answer lists the validation errors, each with the
    input it refused: the value of a field that is out of range, [None]
    for a [null], the whole request body for a required field that is
    missing. The answer is rendered as JSON with [allow_nan=False], which
    raises on an infinity or a NaN. A bounded field that carries one is
    always refused, so its value is always listed; [max_temp] is listed
    only as part of the whole body. *)
Definition error_body_renders (b : RunBody) : bool :=
  json_compliant (b_O_F_ratio b) && json_compliant (b_pressure b)
  && json_compliant (b_temp b) && json_compliant (b_isp b)
  && json_compliant (b_alpha b)
  && (if is_absent (b_O_F_ratio b) || is_absent (b_pressure b)
         || is_absent (b_temp b) || is_absent (b_isp b)
      then json_compliant (b_max_temp b)
      else true).

Definition not_json_compliant : PyExc :=
  ValueError "Out of range float values are not JSON compliant".

Inductive HttpResponse (A : Type) : Type :=
| Http200 (body : A)
| Http422
| Http500 (e : PyExc).
Arguments Http200 {A} body.
Arguments Http422 {A}.
Arguments Http500 {A} e.

Section App.

(** The fitted regressor, its metrics, its training and the minimizer are
    outside the repository's code; [train] is
    [train_model(generate_data(seed=42, size=500), tune_hyperparams=False)]. *)
Context {Model Metrics : Type}.
Variable predict : Model -> Row -> PyResult float.
Variable minimize : MinimizeCall -> PyResult OptimizeResult.
Variable train : PyResult (Model * Metrics).

(** The [results] dictionary stored with a completed job. *)
Record Results : Type := mkResults {
  simulation : SimulationResult;
  optimization : option Optimization;
  model_metrics : Metrics
}.

(** Rows of the tables [experiments] and [results], keyed by job id. *)
Record Experiment : Type := mkExperiment {
  exp_params : ExperimentParams;
  exp_status : string;
  exp_created_at : Z
}.

Record Result : Type := mkResult {
  r_status : string;
  r_data : option Results;
  r_error_message : option string;
  r_completed_at : option Z
}.

Record Database : Type := mkDatabase {
  experiments : gmap string Experiment;
  results : gmap string Result
}.

(** A session: the committed tables, the objects added and not yet
    flushed, the status assignments made on loaded experiments, and
    whether a flush has failed: the session then refuses every statement
    until [rollback()], which this code never calls. *)
Record Session : Type := mkSession {
  store : Database;
  new_experiments : list (string * Experiment);
  new_results : list (string * Result);
  dirty : list (string * string);
  inactive : bool
}.

(** [next(get_db())] *)
Definition get_db (db : Database) : Session := mkSession db [] [] [] false.

Definition add_experiment (id : string) (e : Experiment) (s : Session) : Session :=
  mkSession (store s) (new_experiments s ++ [(id, e)]) (new_results s) (dirty s)
            (inactive s).

Definition add_result (id : string) (r : Result) (s : Session) : Session :=
  mkSession (store s) (new_experiments s) (new_results s ++ [(id, r)]) (dirty s)
            (inactive s).

(** [db.query(Experiment).filter(Experiment.id == job_id).first()];
    sessions are created with [autoflush=False]. *)
Definition query_experiment (id : string) (s : Session) : option Experiment :=
  experiments (store s) !! id.

Definition pending_rollback : PyExc :=
  PendingRollbackError
    "This Session's transaction has been rolled back due to a previous exception during flush.".

(** The same query on a session that may have seen a flush fail. *)
Definition first_experiment (id : string) (s : Session)
  : PyResult (option Experiment) * Session :=
  if inactive s then (Raise pending_rollback, s)
  else (Return (query_experiment id s), s).

(** [experiment.status = st] on what [first()] returned. *)
Definition set_experiment_status (id : string) (e : option Experiment)
    (st : string) (s : Session) : PyResult unit * Session :=
  match e with
  | None => (Raise (AttributeError "'NoneType' object has no attribute 'status'"), s)
  | Some _ =>
      (Return tt,
       mkSession (store s) (new_experiments s) (new_results s)
                 (dirty s ++ [(id, st)]) (inactive s))
  end.

(** Inserting rows under a primary key: [None] on a key already taken. *)
Fixpoint insert_all {V : Type} (rows : list (string * V)) (t : gmap string V)
  : option (gmap string V) :=
  match rows with
  | [] => Some t
  | (k, v) :: rows =>
      match t !! k with
      | Some _ => None
      | None => insert_all rows (<[k := v]> t)
      end
  end.

Definition with_status (st : string) (e : Experiment) : Experiment :=
  mkExperiment (exp_params e) st (exp_created_at e).

Definition apply_dirty (d : list (string * string)) (t : gmap string Experiment)
  : gmap string Experiment :=
  fold_left (λ t kv, alter (with_status (snd kv)) (fst kv) t) d t.

(** [db.commit()]: all pending inserts and updates, or none of them. A
    commit that fails leaves the session inactive. *)
Definition commit (s : Session) : PyResult unit * Session :=
  if inactive s then (Raise pending_rollback, s)
  else
    match insert_all (new_experiments s) (experiments (store s)),
          insert_all (new_results s) (results (store s)) with
    | Some es, Some rs =>
        (Return tt,
         mkSession (mkDatabase (apply_dirty (dirty s) es) rs) [] [] [] false)
    | _, _ =>
        (Raise (IntegrityError "UNIQUE constraint failed"),
         mkSession (store s) [] [] [] true)
    end.

(** The process-wide state: [job_queue], the database and
    [_model_cache] (its ['default'] entry, if any). *)
Record World : Type := mkWorld {
  w_queue : JobQueue ExperimentParams;
  w_db : Database;
  w_cache : option (Model * Metrics)
}.

(** State of a running task: the globals with the task's own session in
    place of the database. *)
Record TaskState : Type := mkTaskState {
  ts_queue : JobQueue ExperimentParams;
  ts_session : Session;
  ts_cache : option (Model * Metrics)
}.

Definition M (A : Type) : Type := TaskState -> PyResult A * TaskState.

Definition ret {A : Type} (a : A) : M A := λ s, (Return a, s).

Definition bind {A B : Type} (m : M A) (k : A -> M B) : M B :=
  λ s, match m s with
       | (Return a, s') => k a s'
       | (Raise e, s') => (Raise e, s')
       end.

#[local] Instance M_ret : MRet M := @ret.
#[local] Instance M_bind : MBind M := λ A B k m, bind m k.

(** [try: body except Exception as e: handler(e)] *)
Definition try_except {A : Type} (body : M A) (handler : PyExc -> M A) : M A :=
  λ s, match body s with
       | (Return a, s') => (Return a, s')
       | (Raise e, s') =>
           if exc_is_Exception e then handler e s' else (Raise e, s')
       end.

Definition lift {A : Type} (r : PyResult A) : M A := λ s, (r, s).

Definition on_session {A : Type} (f : Session -> PyResult A * Session) : M A :=
  λ s, let '(r, d) := f (ts_session s) in
       (r, mkTaskState (ts_queue s) d (ts_cache s)).

(** [job_queue.update_job_status(job_id, status, progress, message)] *)
Definition job_queue_update (job_id status : string) (progress : float)
    (message : string) : M unit :=
  λ s, let '(r, q) := update_job_status job_id status progress message (ts_queue s) in
       (r, mkTaskState q (ts_session s) (ts_cache s)).

(** [get_or_train_model()]. The test and the assignment of the cache are
    not under a lock; this is a call during which no other thread writes
    [_model_cache]. *)
Definition get_or_train_model : M Model :=
  λ s, match ts_cache s with
       | Some (model, _) => (Return model, s)
       | None =>
           match train with
           | Raise e => (Raise e, s)
           | Return (model, metrics) =>
               (Return model,
                mkTaskState (ts_queue s) (ts_session s) (Some (model, metrics)))
           end
       end.

(** [_model_cache['default']['metrics']] *)
Definition cached_metrics : M Metrics :=
  λ s, match ts_cache s with
       | Some (_, metrics) => (Return metrics, s)
       | None => (Raise (KeyError "default"), s)
       end.

(** The three computations of the [try] block in their order, without the
    bookkeeping around them: the model (cached or trained), the
    simulation, and the optimization when [alpha] is given. *)
Definition load_model (cache : option (Model * Metrics)) : PyResult (Model * Metrics) :=
  match cache with
  | Some c => Return c
  | None => train
  end.

Definition pipeline (cache : option (Model * Metrics)) (params : ExperimentParams)
  : PyResult Results :=
  match load_model cache with
  | Raise e => Raise e
  | Return (model, metrics) =>
      match simulate predict
              (mkParams (ep_O_F_ratio params) (ep_pressure params)
                        (ep_temp params) (ep_isp params)) model with
      | Raise e => Raise e
      | Return simulation_result =>
          match ep_alpha params with
          | None => Return (mkResults simulation_result None metrics)
          | Some alpha =>
              match snd (optimize_fuel_mixture predict minimize
                           model alpha (ep_max_temp params)) with
              | Raise e => Raise e
              | Return o => Return (mkResults simulation_result (Some o) metrics)
              end
          end
      end
  end.

(** The [try] block of [_run_experiment_task]. *)
Definition task_try (job_id : string) (params : ExperimentParams) (now : Z) : M unit :=
  job_queue_update job_id "running" f0_1 "Starting experiment" ;;
  model ← get_or_train_model;
  job_queue_update job_id "running" f0_3 "Model loaded" ;;
  simulation_result ←
    lift (simulate predict
            (mkParams (ep_O_F_ratio params) (ep_pressure params)
                      (ep_temp params) (ep_isp params)) model);
  job_queue_update job_id "running" f0_6 "Simulation completed" ;;
  optimization_result ←
    match ep_alpha params with
    | Some alpha =>
        o ← lift (snd (optimize_fuel_mixture predict minimize
                          model alpha (ep_max_temp params)));
        ret (Some o)
    | None => ret None
    end;
  job_queue_update job_id "running" f0_9 "Optimization completed" ;;
  metrics ← cached_metrics;
  on_session (λ d,
    (Return tt,
     add_result job_id
       (mkResult "completed"
                 (Some (mkResults simulation_result optimization_result metrics))
                 None (Some now)) d)) ;;
  experiment ← on_session (first_experiment job_id);
  on_session (set_experiment_status job_id experiment "completed") ;;
  on_session commit ;;
  job_queue_update job_id "completed" f1_0 "Experiment completed successfully".

(** The [except Exception as e] block. *)
Definition task_except (job_id : string) (now : Z) (e : PyExc) : M unit :=
  let error_msg := exc_str e in
  on_session (λ d,
    (Return tt,
     add_result job_id (mkResult "failed" None (Some error_msg) (Some now)) d)) ;;
  experiment ← on_session (first_experiment job_id);
  on_session (set_experiment_status job_id experiment "failed") ;;
  on_session commit ;;
  job_queue_update job_id "failed" f0_0 ("Experiment failed: " +:+ error_msg).

(** [_run_experiment_task(job_id, params)], run at time [now]. What the
    session holds uncommitted when the task ends is dropped with it. *)
Definition _run_experiment_task (job_id : string) (params : ExperimentParams)
    (now : Z) (w : World) : PyResult unit * World :=
  let db := get_db (w_db w) in
  let '(r, s) :=
    try_except (task_try job_id params now) (task_except job_id now)
               (mkTaskState (w_queue w) db (w_cache w)) in
  (r, mkWorld (ts_queue s) (store (ts_session s)) (ts_cache s)).

(** The body of the [/run] handler, for a validated [params], with
    [job_id] the fresh [uuid4]. The clock is read twice: [now] when the
    commit fills the column default of [created_at], [enqueued] when
    [enqueue_job] registers the job. *)
Definition run_experiment (params : ExperimentParams) (job_id : string)
    (now enqueued : Z) (w : World) : PyResult JobResponse * World :=
  let db := add_experiment job_id (mkExperiment params "queued" now) (get_db (w_db w)) in
  match commit db with
  | (Raise e, _) => (Raise e, w)
  | (Return _, db') =>
      match enqueue_job job_id params enqueued (w_queue w) with
      | (Raise e, q) => (Raise e, mkWorld q (store db') (w_cache w))
      | (Return _, q) =>
          (Return (mkJobResponse job_id "queued" "Experiment queued successfully"),
           mkWorld q (store db') (w_cache w))
      end
  end.

(** [POST /run]: the framework validates the body first and calls the
    handler only with a valid [ExperimentParams]. A body it refuses is
    answered 422 with the list of errors, or 500 when that list cannot be
    rendered; the handler has not run in either case. *)
Definition post_run (body : RunBody) (job_id : string) (now enqueued : Z)
    (w : World) : HttpResponse JobResponse * World :=
  match validate body with
  | None =>
      if error_body_renders body then (Http422, w)
      else (Http500 not_json_compliant, w)
  | Some params =>
      match run_experiment params job_id now enqueued w with
      | (Return r, w') => (Http200 r, w')
      | (Raise e, w') => (Http500 e, w')
      end
  end.

End App.
Arguments Results : clear implicits.
Arguments Result : clear implicits.
Arguments Database : clear implicits.
Arguments Session : clear implicits.
Arguments World : clear implicits.
Arguments TaskState : clear implicits.
End Api.

(** ** Concrete states used as examples *)
Module Scenario.
Import Worker Engine Api.

(** A queue with one job, ["j"], whose task is still running. *)
Definition one_running : JobQueue unit :=
  snd (enqueue_job "j" tt 0 new_queue).

(** The task of ["j"] has pushed some progress. *)
Definition one_in_progress : JobQueue unit :=
  snd (update_job_status "j" "running" f0_6 "Simulation completed" one_running).

(** The task of ["j"] ended by raising [SystemExit]. *)
Definition SystemExit : PyExc := mkExc "SystemExit" false "1".
Definition one_exited : JobQueue unit :=
  worker_finish 0 (Raise SystemExit) one_in_progress.

(** The task of ["j"] ended by raising a [ValueError]. *)
Definition ValueError : PyExc := Py.ValueError "bad input".
Definition one_raised : JobQueue unit :=
  worker_finish 0 (Raise ValueError) one_in_progress.

(** The task of ["j"] returned and a poll has seen it. *)
Definition one_completed : JobQueue unit :=
  snd (get_job_status "j" (worker_finish 0 (Return tt) one_in_progress)).

(** The task of ["j"] caught its own fault, reported failed and returned. *)
Definition one_failed : JobQueue unit :=
  worker_finish 0 (Return tt)
    (snd (update_job_status "j" "failed" f0_0 "Experiment failed: bad input"
            one_in_progress)).

(** [enqueue_job] overtaken by its own task: between the submission and
    the second locked block the task runs to its end, reporting failed. *)
Definition overtaken_trace : list (Op unit) :=
  [OpRegister "j" 0; OpSubmit "j" tt;
   OpUpdate "j" "failed" f0_0 "Experiment failed: bad input";
   OpFinish 0 (Return tt); OpAttach "j" 0].
Definition overtaken : JobQueue unit := run overtaken_trace new_queue.

(** A model that predicts a constant thrust, a minimizer that gives up,
    a training that returns at once. *)
Definition const_predict (model : unit) (row : Row) : PyResult float := Return f300.
Definition minimize_gives_up (call : MinimizeCall) : PyResult OptimizeResult :=
  Return (mkOptimizeResult false initial_guess f0_0 "Iteration limit reached").
Definition train_once : PyResult (unit * nat) := Return (tt, 7%nat).

(** Faulty models: one whose inference raises a [ValueError], one that
    leaves through [SystemExit]. *)
Definition failing_predict (model : unit) (row : Row) : PyResult float :=
  Raise ValueError.
Definition exiting_predict (model : unit) (row : Row) : PyResult float :=
  Raise SystemExit.

(** The parameters of the end-to-end scenario: 3.5, 5.0, 3000.0, 300.0,
    with the defaults for the optional fields. *)
Definition valid_body : RunBody :=
  mkRunBody (Value (float_lit 7 2)) (Value (float_of_Z 5)) (Value f3000)
            (Value f300) Absent Absent Absent.
Definition valid_params : ExperimentParams :=
  mkExperimentParams (float_lit 7 2) (float_of_Z 5) f3000 f300
                     (Some f0_5) (Some f4000) (Some false).

(** The body of the validation test: O/F ratio 10.0. *)
Definition invalid_body : RunBody :=
  mkRunBody (Value f10) (Value (float_of_Z 5)) (Value f3000)
            (Value f300) Absent Absent Absent.

(** A minimizer that raises from inside the library call. *)
Definition minimize_raises (call : MinimizeCall) : PyResult OptimizeResult :=
  Raise ValueError.

Definition empty_world : World unit nat :=
  mkWorld new_queue (mkDatabase ∅ ∅) None.

(** The world after [POST /run] accepted [valid_body] as job ["j"]. *)
Definition submitted_world : World unit nat :=
  snd (post_run valid_body "j" 0 1 empty_world).

(** The same world with the experiment row gone from the database. *)
Definition orphaned_world : World unit nat :=
  mkWorld (w_queue submitted_world) (mkDatabase ∅ ∅) None.

(** The queue of [submitted_world] once the task of ["j"] has pushed
    progress 0.6 and then raised. *)
Definition in_progress_raised : JobQueue ExperimentParams :=
  worker_finish 0 (Raise ValueError)
    (snd (update_job_status "j" "running" f0_6 "Simulation completed"
            (w_queue submitted_world))).

(** The task of ["j"] run on [submitted_world] with a model that leaves
    through [SystemExit], and the queue once its worker thread has set the
    future. *)
Definition exited_task : PyResult unit * World unit nat :=
  _run_experiment_task exiting_predict minimize_gives_up train_once
    "j" valid_params 5 submitted_world.
Definition exited_queue : JobQueue ExperimentParams :=
  worker_finish 0 (fst exited_task) (w_queue (snd exited_task)).

(** A body whose O/F ratio is [1e999], which [json.loads] reads as
    infinity. *)
Definition infinite_body : RunBody :=
  mkRunBody (Value (S754_infinity false)) (Value (float_of_Z 5)) (Value f3000)
            (Value f300) Absent Absent Absent.

(** Operations on and around the completed job ["j"]: polls, another job
    ["k"] that is enqueued, updated and fails, a shutdown. *)
Definition busy_trace : list (Op unit) :=
  [OpGetStatus "j"; OpEnqueue "k" tt 3; OpUpdate "k" "running" f0_1 "Starting experiment";
   OpFinish 1 (Raise ValueError); OpGetStatus "k"; OpShutdown; OpGetStatus "j"].

(** The same with the call of [enqueue_job] for ["k"] taken apart: its
    task starts, pushes progress and raises before the second locked block
    runs, and the future of ["j"] is completed once more. *)
Definition interleaved_trace : list (Op unit) :=
  [OpGetStatus "j"; OpRegister "k" 3; OpSubmit "k" tt;
   OpUpdate "k" "running" f0_1 "Starting experiment";
   OpFinish 1 (Raise ValueError); OpGetStatus "k"; OpAttach "k" 1;
   OpGetStatus "k"; OpFinish 0 (Raise ValueError); OpShutdown;
   OpGetStatus "j"].

End Scenario.

(** ** backend/api.py: the two read endpoints *)
Module Endpoints.
Import Worker Engine Api.

(** What a read handler gives back: a body, the
    [HTTPException(status_code=404, detail=...)] it raises, or a fault it
    lets through. *)
Inductive Reply (A : Type) : Type :=
| Ok (body : A)
| NotFound (detail : string)
| Fault (e : PyExc).
Arguments Ok {A} body.
Arguments NotFound {A} detail.
Arguments Fault {A} e.

Record JobStatus : Type := mkJobStatus {
  js_job_id : string;
  js_status : string;
  js_progress : float;
  js_message : string;
  js_created_at : Z
}.

Section App.
Context {Model Metrics : Type}.

Record JobResult : Type := mkJobResult {
  jres_job_id : string;
  jres_status : string;
  jres_results : option (Results Metrics);
  jres_error : option string;
  jres_created_at : Z;
  jres_completed_at : option Z
}.

(** [GET /status/{job_id}] *)
Definition get_job_status (job_id : string) (w : World Model Metrics)
  : Reply JobStatus * World Model Metrics :=
  match query_experiment job_id (get_db (w_db w)) with
  | None => (NotFound "Job not found", w)
  | Some experiment =>
      match Worker.get_job_status job_id (w_queue w) with
      | (Raise e, q) => (Fault e, mkWorld q (w_db w) (w_cache w))
      | (Return job_status, q) =>
          (Ok (mkJobStatus job_id (sd_status job_status) (sd_progress job_status)
                           (sd_message job_status) (exp_created_at experiment)),
           mkWorld q (w_db w) (w_cache w))
      end
  end.

(** [GET /result/{job_id}]; it reads the two tables and writes nothing. *)
Definition get_job_result (job_id : string) (w : World Model Metrics)
  : Reply JobResult :=
  match results (w_db w) !! job_id with
  | None => NotFound "Result not found"
  | Some result =>
      match query_experiment job_id (get_db (w_db w)) with
      | None => Fault (AttributeError "'NoneType' object has no attribute 'created_at'")
      | Some experiment =>
          Ok (mkJobResult job_id (r_status result)
                (if String.eqb (r_status result) "completed" then r_data result else None)
                (if String.eqb (r_status result) "failed"
                 then r_error_message result else None)
                (exp_created_at experiment)
                (r_completed_at result))
      end
  end.

(** The worker thread that ran the task behind handle [h] sets its future. *)
Definition finish_task (h : nat) (r : PyResult unit) (w : World Model Metrics)
  : World Model Metrics :=
  mkWorld (worker_finish h r (w_queue w)) (w_db w) (w_cache w).

End App.
Arguments JobResult : clear implicits.
End Endpoints.

(** ** Invariants of the job queue *)
Module Invariants.
Import Worker.
Section Queue.
Context {Task : Type}.

(** Every future a record holds names a work item of the pool, and that
    work item was submitted for the record's identifier. *)
Definition futures_bound (q : JobQueue Task) : Prop :=
  ∀ id j h,
    jobs q !! id = Some j → future j = Some h →
    ∃ w, futures (executor q) !! h = Some w ∧ wi_job_id w = id.

(** The records the queue writes by itself. *)
Definition queue_written (j : Job) : Prop :=
  (status j = "queued" ∧ progress j = f0_0)
  ∨ (status j = "running" ∧ (progress j = f0_0 ∨ progress j = f1_0))
  ∨ (status j = "completed" ∧ progress j = f1_0)
  ∨ (status j = "failed" ∧ progress j = f0_0).

Definition is_update (op : Op Task) : bool :=
  match op with OpUpdate _ _ _ _ => true | _ => false end.

End Queue.
End Invariants.

(** ** More concrete states *)
Module MoreScenarios.
Import Worker Engine Api Endpoints Scenario.

(** A second job, ["k"], enqueued after ["j"] has completed. *)
Definition two_jobs : JobQueue unit :=
  snd (enqueue_job "k" tt 9 one_completed).

(** A trace around a job: polls, a cleanup, work on other jobs. *)
Definition idle_trace : list (Op unit) :=
  [OpGetStatus "z"; OpFinish 0 (Return tt); OpCleanup 0 100; OpGetStatus "j";
   OpUpdate "j" "running" f0_3 "Model loaded"; OpGetStatus "z"].

(** Two calls of [enqueue_job] for ["j"] that overlap, without any
    [update_job_status]: the first call finishes its second block, its task
    returns and a poll resolves the record, and only then the other call
    reaches its second block. *)
Definition overlapping_trace : list (Op unit) :=
  [OpRegister "j" 0; OpSubmit "j" tt; OpRegister "j" 0; OpSubmit "j" tt;
   OpAttach "j" 0; OpFinish 0 (Return tt); OpGetStatus "j"; OpAttach "j" 1].

(** A body with every optional field given, [max_temp] far below the
    temperature range. *)
Definition full_body : RunBody :=
  mkRunBody (Value (float_lit 7 2)) (Value (float_of_Z 5)) (Value f3000)
            (Value f300) (Value f1_0) (Value f10) (Value true).

(** A world whose pool was shut down. *)
Definition closed_world : World unit nat :=
  mkWorld (snd (shutdown new_queue)) (mkDatabase ∅ ∅) None.

(** [submitted_world] after the task of ["j"] ran at time 5 with a model
    that works and a minimizer that gives up, and after its worker thread
    set the future. *)
Definition completed_world : World unit nat :=
  let out := _run_experiment_task const_predict minimize_gives_up train_once
               "j" valid_params 5 submitted_world in
  finish_task 0 (fst out) (snd out).

End MoreScenarios.

(** ** An invariant of a running task *)
Module TaskInvariants.
Import Worker Api.
Section App.
Context {Model Metrics : Type}.

(** The state [s] of the task of [job_id] differs from the world [w] it
    started in at most in what belongs to [job_id]: the pool and every
    other record, experiment and result are those of [w], and whatever the
    session holds uncommitted is keyed by [job_id]. *)
Definition writes_only (job_id : string) (w : World Model Metrics)
    (s : TaskState Model Metrics) : Prop :=
  executor (ts_queue s) = executor (w_queue w)
  ∧ (∀ id, id ≠ job_id → jobs (ts_queue s) !! id = jobs (w_queue w) !! id)
  ∧ (∀ id, id ≠ job_id →
       experiments (store (ts_session s)) !! id = experiments (w_db w) !! id)
  ∧ (∀ id, id ≠ job_id →
       results (store (ts_session s)) !! id = results (w_db w) !! id)
  ∧ new_experiments (ts_session s) = []
  ∧ Forall (λ kv, fst kv = job_id) (new_results (ts_session s))
  ∧ Forall (λ kv, fst kv = job_id) (dirty (ts_session s)).

End App.
End TaskInvariants.

(** * Properties of the job queue *)
Module WorkerFacts.
Import Worker Scenario.

Section Facts.
Context {Task : Type}.
Implicit Types (q : JobQueue Task) (j : Job) (id : string).

(** *** What each operation does to the record of another identifier *)

Lemma get_job_status_other id id' q :
  id ≠ id' → jobs (snd (get_job_status id' q)) !! id = jobs q !! id.
Proof.
  intros Hne. unfold get_job_status.
  destruct (jobs q !! id') as [job|]; [|done].
  destruct (done _ && _); [|done].
  destruct (result _) as [[]|e]; [|destruct (exc_is_Exception e)]; simpl;
    try done; by rewrite lookup_insert_ne.
Qed.

Lemma update_job_status_other id id' st pr msg q :
  id ≠ id' → jobs (snd (update_job_status id' st pr msg q)) !! id = jobs q !! id.
Proof.
  intros Hne. unfold update_job_status.
  destruct (jobs q !! id'); simpl; [by rewrite lookup_insert_ne | done].
Qed.

Lemma enqueue_job_other id id' (func : Task) now q :
  id ≠ id' → jobs (snd (enqueue_job id' func now q)) !! id = jobs q !! id.
Proof.
  intros Hne. unfold enqueue_job, submit, attach_future, register_job.
  simpl. destruct (is_shutdown (executor q)); simpl.
  - by rewrite lookup_insert_ne.
  - rewrite lookup_insert_eq. simpl. by rewrite !lookup_insert_ne.
Qed.

Lemma register_job_other id id' now q :
  id ≠ id' → jobs (register_job id' now q) !! id = jobs q !! id.
Proof. intros Hne. unfold register_job. simpl. by rewrite lookup_insert_ne. Qed.

Lemma attach_future_other id id' h q :
  id ≠ id' → jobs (snd (attach_future id' h q)) !! id = jobs q !! id.
Proof.
  intros Hne. unfold attach_future.
  destruct (jobs q !! id'); simpl; [by rewrite lookup_insert_ne | done].
Qed.

Lemma attach_step_other id id' h q :
  id ≠ id' → jobs (step q (OpAttach id' h)) !! id = jobs q !! id.
Proof.
  intros Hne. cbn [step]. destruct (submitted_for _ _ _); [|done].
  by apply attach_future_other.
Qed.

Lemma attach_step_absent id h q :
  jobs q !! id = None → step q (OpAttach id h) = q.
Proof.
  intros Hn. cbn [step]. destruct (submitted_for _ _ _); [|done].
  unfold attach_future. by rewrite Hn.
Qed.

(** The second locked block writes the status running and the future, and
    nothing else. *)
Lemma attach_step_status id h j q :
  jobs q !! id = Some j →
  ∃ j', jobs (step q (OpAttach id h)) !! id = Some j'
        ∧ (j' = j ∨ (status j' = "running" ∧ progress j' = progress j
                     ∧ message j' = message j ∧ created_at j' = created_at j)).
Proof.
  intros Hj. cbn [step]. destruct (submitted_for _ _ _); [|eauto].
  unfold attach_future. rewrite Hj. simpl. rewrite lookup_insert_eq.
  eexists. split; [done|]. by right.
Qed.

Lemma worker_finish_jobs h r q : jobs (worker_finish h r q) = jobs q.
Proof.
  unfold worker_finish. destruct (futures (executor q) !! h) as [w|]; [|done].
  by destruct (done (wi_state w)).
Qed.

Lemma cleanup_lookup age now id q :
  jobs (snd (cleanup_completed_jobs age now q)) !! id =
  match jobs q !! id with
  | Some j => if to_remove (cutoff_time age now) j then None else Some j
  | None => None
  end.
Proof.
  unfold cleanup_completed_jobs. simpl. rewrite map_lookup_filter.
  destruct (jobs q !! id) as [j|]; simpl; [|done].
  destruct (to_remove _ j); by case_guard.
Qed.

(** *** Polls of unknown and of terminal records *)

Lemma get_job_status_unknown id q :
  jobs q !! id = None →
  get_job_status id q = (Return (mkStatusDict "not_found" f0_0 "Job not found"), q).
Proof. intros H. unfold get_job_status. by rewrite H. Qed.

Lemma get_job_status_terminal id j q :
  jobs q !! id = Some j → is_terminal (status j) = true →
  get_job_status id q = (Return (status_of j), q).
Proof.
  intros H Ht. unfold get_job_status. rewrite H, Ht.
  by rewrite andb_false_r.
Qed.

(** A poll returns the status stored in the record it leaves behind. *)
Lemma get_job_status_returns_record id q sd :
  is_Some (jobs q !! id) →
  fst (get_job_status id q) = Return sd →
  ∃ j, jobs (snd (get_job_status id q)) !! id = Some j ∧ sd = status_of j.
Proof.
  intros [job Hj]. unfold get_job_status. rewrite Hj.
  destruct (done _ && _).
  - destruct (result _) as [[]|e]; [|destruct (exc_is_Exception e)]; simpl;
      intros [= <-]; eexists; (split; [apply lookup_insert_eq | done]).
  - simpl. intros [= <-]. eauto.
Qed.

(** *** C9 *)

(** C9. [update_job_status] on an identifier that is not in the job table
    raises nothing, returns [None] exactly as a successful update does, and
    leaves the queue, every record included, as it was. *)
Theorem update_job_status_unknown_noop id st pr msg q :
  jobs q !! id = None →
  update_job_status id st pr msg q = (Return tt, q)
  ∧ ∀ q', fst (update_job_status id st pr msg q') = Return tt.
Proof.
  intros H. split.
  - unfold update_job_status. by rewrite H.
  - intros q'. unfold update_job_status. by destruct (jobs q' !! id).
Qed.

(** *** C2 *)

(** C2 (as amended). A poll of a registered job whose future is done and
    whose record is not terminal resolves it: after a return the record
    and the returned dictionary are completed with progress 1.0; after a
    fault of class [Exception] they are failed with the fault's text in
    the message; every other record is untouched. A fault outside
    [Exception] is re-raised by the poll and the queue stays as it was. *)
Theorem get_job_status_resolves id job q :
  jobs q !! id = Some job →
  done (future_state (executor q) (future job)) = true →
  is_terminal (status job) = false →
  match result (future_state (executor q) (future job)) with
  | Return _ =>
      ∃ q' j',
        get_job_status id q = (Return (status_of j'), q')
        ∧ jobs q' !! id = Some j'
        ∧ status j' = "completed" ∧ progress j' = f1_0
        ∧ ∀ id', id' ≠ id → jobs q' !! id' = jobs q !! id'
  | Raise e =>
      if exc_is_Exception e then
        ∃ q' j',
          get_job_status id q = (Return (status_of j'), q')
          ∧ jobs q' !! id = Some j'
          ∧ status j' = "failed" ∧ message j' = "Job failed: " +:+ exc_str e
          ∧ ∀ id', id' ≠ id → jobs q' !! id' = jobs q !! id'
      else get_job_status id q = (Raise e, q)
  end.
Proof.
  intros Hj Hd Ht.
  assert (Hnf : String.eqb (status job) "failed" = false).
  { unfold is_terminal in Ht. by apply orb_false_elim in Ht as [_ ?]. }
  unfold get_job_status. rewrite Hj, Hd, Ht. simpl.
  destruct (result _) as [[]|e].
  - rewrite Hnf. simpl. eexists _, _. split; [reflexivity|].
    simpl. rewrite lookup_insert_eq. repeat split; try done.
    intros id' Hne. by rewrite lookup_insert_ne.
  - destruct (exc_is_Exception e); [|done].
    eexists _, _. split; [reflexivity|].
    simpl. rewrite lookup_insert_eq. repeat split; try done.
    intros id' Hne. by rewrite lookup_insert_ne.
Qed.

(** The part of C10 that is about the queue: a poll that resolves a raised
    fault stores progress 0.0, whatever progress the record carried. *)
Lemma get_job_status_failed_progress id job e q :
  jobs q !! id = Some job →
  future_state (executor q) (future job) = Raised e →
  exc_is_Exception e = true →
  is_terminal (status job) = false →
  ∃ q' j',
    get_job_status id q = (Return (status_of j'), q')
    ∧ jobs q' !! id = Some j'
    ∧ status j' = "failed" ∧ progress j' = f0_0.
Proof.
  intros Hj Hf He Ht. unfold get_job_status. rewrite Hj, Hf, Ht. simpl.
  rewrite He. eexists _, _. split; [reflexivity|].
  simpl. by rewrite lookup_insert_eq.
Qed.

(** *** C3 *)


(** *** Traces of operations *)

Lemma run_snoc ops op q : run (ops ++ [op]) q = step (run ops q) op.
Proof. unfold run. by rewrite fold_left_app. Qed.

(** The future that [submit] returns satisfies [submitted_for], and goes
    on to satisfy it whatever happens next: work items are never removed
    from the pool and never change their job. So the test of [OpAttach]
    succeeds in every run of the code. *)
Lemma submit_step_submitted_for id (func : Task) q :
  is_shutdown (executor q) = false →
  fst (submit func id (executor q)) = Return (length (futures (executor q)))
  ∧ submitted_for id (length (futures (executor q)))
      (executor (step q (OpSubmit id func))) = true.
Proof.
  intros Hs. cbn [step]. unfold submit, submitted_for. rewrite Hs.
  cbn [fst snd executor futures]. split; [done|].
  rewrite list_lookup_middle by done. cbn [wi_job_id].
  apply String.eqb_refl.
Qed.

Lemma submitted_for_app id h (ws ws' : list (WorkItem Task)) sh sh' :
  submitted_for id h (mkExecutor ws sh) = true →
  submitted_for id h (mkExecutor (ws ++ ws') sh') = true.
Proof.
  unfold submitted_for. cbn [futures].
  destruct (ws !! h) as [w|] eqn:Hw; [|done].
  by rewrite (lookup_app_l_Some _ _ _ _ Hw).
Qed.

Lemma submitted_for_stable id h op q :
  submitted_for id h (executor q) = true →
  submitted_for id h (executor (step q op)) = true.
Proof.
  intros H.
  destruct op as [id' f now|id'|id' st pr msg|age now| |h0 r|id' now|id' f|id' h0];
    cbn [step].
  - unfold enqueue_job, submit. cbn [register_job set_jobs executor jobs].
    destruct q as [[ws sh] js]. cbn [executor is_shutdown futures] in *.
    destruct sh; cbn [snd fst]; [done|].
    unfold attach_future. cbn [jobs]. rewrite lookup_insert_eq.
    cbn [snd set_jobs executor]. by apply (submitted_for_app id h ws _ false).
  - unfold get_job_status. destruct (jobs q !! id'); [|done].
    destruct (done _ && _); [|done].
    destruct (result _) as [[]|e]; [|destruct (exc_is_Exception e)]; done.
  - unfold update_job_status. by destruct (jobs q !! id').
  - done.
  - done.
  - unfold worker_finish, submitted_for in *.
    destruct (futures (executor q) !! h0) as [w0|] eqn:Hw0; [|done].
    destruct (done (wi_state w0)); [done|]. cbn [executor futures].
    destruct (decide (h = h0)) as [->|Hne].
    + rewrite list_lookup_insert_eq by (by eapply lookup_lt_Some).
      by rewrite Hw0 in H.
    + by rewrite list_lookup_insert_ne.
  - done.
  - unfold submit. destruct q as [[ws sh] js].
    cbn [executor is_shutdown futures] in *.
    destruct sh; cbn [snd]; [done|]. by apply (submitted_for_app id h ws _ false).
  - destruct (submitted_for id' h0 (executor q)); [|done].
    unfold attach_future. by destruct (jobs q !! id').
Qed.

(** A call of [enqueue_job] that no other thread interrupts is its three
    steps in a row, or the first two when the pool refuses the task. *)
Lemma enqueue_job_steps id (func : Task) now q :
  step q (OpEnqueue id func now)
  = if is_shutdown (executor q)
    then run [OpRegister id now; OpSubmit id func] q
    else run [OpRegister id now; OpSubmit id func;
              OpAttach id (length (futures (executor q)))] q.
Proof.
  unfold run. cbn [fold_left step]. unfold enqueue_job, submit.
  cbn [register_job set_jobs executor jobs].
  destruct (is_shutdown (executor q)) eqn:Hs; cbn [snd fst]; [done|].
  unfold submitted_for. cbn [executor futures].
  rewrite list_lookup_middle by done. cbn [wi_job_id].
  by rewrite String.eqb_refl.
Qed.

(** An invariant of every permitted step is an invariant of a trace. *)
Lemma run_invariant (I : JobQueue Task → Prop) (ok : Op Task → bool) :
  (∀ q op, ok op = true → I q → I (step q op)) →
  ∀ ops q, forallb ok ops = true → I q → I (run ops q).
Proof.
  intros Hstep ops. induction ops as [|op ops IH]; intros q Hok HI; [done|].
  simpl in Hok. apply andb_true_iff in Hok as [Hop Hops].
  simpl. apply IH; [done|]. by apply Hstep.
Qed.

Lemma enqueue_job_status id (func : Task) now q :
  ∃ j, jobs (snd (enqueue_job id func now q)) !! id = Some j
       ∧ (status j = "running" ∨ status j = "queued").
Proof.
  unfold enqueue_job, submit, attach_future, register_job. simpl.
  destruct (is_shutdown (executor q)); simpl.
  - rewrite lookup_insert_eq. eauto.
  - rewrite lookup_insert_eq. simpl. rewrite lookup_insert_eq. eauto.
Qed.

Lemma get_job_status_status id j q :
  jobs q !! id = Some j →
  ∃ j', jobs (snd (get_job_status id q)) !! id = Some j'
        ∧ (j' = j ∨ status j' = "completed" ∨ status j' = "failed").
Proof.
  intros Hj. unfold get_job_status. rewrite Hj.
  destruct (done _ && _); [|eauto].
  destruct (result _) as [[]|e]; [|destruct (exc_is_Exception e)]; simpl.
  - rewrite lookup_insert_eq.
    destruct (negb _); eauto.
  - rewrite lookup_insert_eq. eauto.
  - eauto.
Qed.

Lemma step_keeps_absent id op q :
  enqueues id op = false → jobs q !! id = None → jobs (step q op) !! id = None.
Proof.
  intros Hop Hn.
  destruct op as [id' f now|id'|id' st pr msg|age now| |h r|id' now|id' f|id' h].
  - cbn [step]. simpl in Hop. apply String.eqb_neq in Hop.
    rewrite enqueue_job_other; [done|congruence].
  - cbn [step]. destruct (decide (id = id')) as [<-|Hne].
    + by rewrite get_job_status_unknown.
    + by rewrite get_job_status_other.
  - cbn [step]. destruct (decide (id = id')) as [<-|Hne].
    + unfold update_job_status. by rewrite Hn.
    + by rewrite update_job_status_other.
  - cbn [step]. rewrite cleanup_lookup. by rewrite Hn.
  - done.
  - cbn [step]. by rewrite worker_finish_jobs.
  - cbn [step]. simpl in Hop. apply String.eqb_neq in Hop.
    rewrite register_job_other; [done|congruence].
  - done.
  - destruct (decide (id = id')) as [<-|Hne].
    + by rewrite attach_step_absent.
    + by rewrite attach_step_other.
Qed.

Lemma step_keeps_terminal id j op q :
  overwrites id op = false →
  jobs q !! id = Some j → is_terminal (status j) = true →
  jobs (step q op) !! id = Some j
  ∨ (is_cleanup op = true ∧ jobs (step q op) !! id = None).
Proof.
  intros Hop Hj Ht.
  destruct op as [id' f now|id'|id' st pr msg|age now| |h r|id' now|id' f|id' h].
  - cbn [step]. simpl in Hop. apply String.eqb_neq in Hop. left.
    rewrite enqueue_job_other; [done|congruence].
  - cbn [step]. left. destruct (decide (id = id')) as [<-|Hne].
    + by rewrite (get_job_status_terminal id j).
    + by rewrite get_job_status_other.
  - cbn [step]. simpl in Hop. apply String.eqb_neq in Hop. left.
    rewrite update_job_status_other; [done|congruence].
  - cbn [step]. rewrite cleanup_lookup, Hj. destruct (to_remove _ j); eauto.
  - by left.
  - cbn [step]. left. by rewrite worker_finish_jobs.
  - cbn [step]. simpl in Hop. apply String.eqb_neq in Hop. left.
    rewrite register_job_other; [done|congruence].
  - by left.
  - simpl in Hop. apply String.eqb_neq in Hop. left.
    rewrite attach_step_other; [done|congruence].
Qed.

Lemma step_keeps_present id op q :
  is_cleanup op = false →
  is_Some (jobs q !! id) → is_Some (jobs (step q op) !! id).
Proof.
  intros Hop [j Hj].
  destruct op as [id' f now|id'|id' st pr msg|age now| |h r|id' now|id' f|id' h];
    try done.
  - cbn [step]. destruct (decide (id = id')) as [<-|Hne].
    + destruct (enqueue_job_status id f now q) as (j' & -> & _). eauto.
    + rewrite enqueue_job_other; eauto.
  - cbn [step]. destruct (decide (id = id')) as [<-|Hne].
    + destruct (get_job_status_status id j q Hj) as (j' & -> & _). eauto.
    + rewrite get_job_status_other; eauto.
  - cbn [step]. destruct (decide (id = id')) as [<-|Hne].
    + unfold update_job_status. rewrite Hj. simpl.
      rewrite lookup_insert_eq. eauto.
    + rewrite update_job_status_other; eauto.
  - cbn [step]. rewrite worker_finish_jobs. eauto.
  - cbn [step]. destruct (decide (id = id')) as [<-|Hne].
    + unfold register_job. simpl. rewrite lookup_insert_eq. eauto.
    + rewrite register_job_other; eauto.
  - destruct (decide (id = id')) as [<-|Hne].
    + destruct (attach_step_status id h j q Hj) as (j' & -> & _). eauto.
    + rewrite attach_step_other; eauto.
Qed.

(** No step stores the status [st] in the record of [id], for [st] none of
    the four statuses the queue writes itself, unless it is an update that
    carries [st]. *)
Lemma step_keeps_status_apart id st op q :
  st ≠ "queued" → st ≠ "running" → st ≠ "completed" → st ≠ "failed" →
  writes_status id st op = false →
  (∀ j, jobs q !! id = Some j → status j ≠ st) →
  ∀ j, jobs (step q op) !! id = Some j → status j ≠ st.
Proof.
  intros Hq Hr Hc Hf Hop HI j'.
  destruct op as [id' f now|id'|id' st' pr msg|age now| |h r|id' now|id' f|id' h];
    [cbn [step]..| ].
  - destruct (decide (id = id')) as [<-|Hne].
    + destruct (enqueue_job_status id f now q) as (j & -> & Hs).
      intros [= <-]. destruct Hs as [-> | ->]; congruence.
    + rewrite enqueue_job_other by done. apply HI.
  - destruct (decide (id = id')) as [<-|Hne].
    + destruct (jobs q !! id) as [j|] eqn:Hj.
      * destruct (get_job_status_status id j q Hj) as (j'' & -> & Hs).
        intros [= <-]. destruct Hs as [-> | [-> | ->]]; [by apply HI|congruence..].
      * rewrite get_job_status_unknown by done. simpl. by rewrite Hj.
    + rewrite get_job_status_other by done. apply HI.
  - destruct (decide (id = id')) as [<-|Hne].
    + unfold update_job_status. destruct (jobs q !! id) as [j|] eqn:Hj; simpl.
      * rewrite lookup_insert_eq. intros [= <-]. simpl.
        simpl in Hop. rewrite String.eqb_refl in Hop. simpl in Hop.
        by apply String.eqb_neq in Hop.
      * by rewrite Hj.
    + rewrite update_job_status_other by done. apply HI.
  - rewrite cleanup_lookup. destruct (jobs q !! id) as [j|] eqn:Hj; [|done].
    destruct (to_remove _ j); [done|]. intros [= <-]. by apply HI.
  - apply HI.
  - rewrite worker_finish_jobs. apply HI.
  - destruct (decide (id = id')) as [<-|Hne].
    + unfold register_job. simpl. rewrite lookup_insert_eq.
      intros [= <-]. simpl. congruence.
    + rewrite register_job_other by done. apply HI.
  - apply HI.
  - destruct (decide (id = id')) as [<-|Hne].
    + destruct (jobs q !! id) as [j|] eqn:Hj.
      * destruct (attach_step_status id h j q Hj) as (j'' & -> & Hs).
        intros [= <-]. destruct Hs as [-> | [-> _]]; [by apply HI|congruence].
      * rewrite attach_step_absent by done. by rewrite Hj.
    + rewrite attach_step_other by done. apply HI.
Qed.

(** *** C1 *)

(** C1 (as amended). Once the record of [id] is completed or failed, no
    poll of any job, no completion of any future, no submission, no
    shutdown and no operation naming another identifier changes it: after
    any trace of steps, interleaved in any way, in which no
    [update_job_status] and neither locked block of an [enqueue_job] runs
    on [id], the record is the same, or a cleanup has deleted it; as long
    as no cleanup ran, every poll of [id] returns that same terminal status
    and leaves the queue as it is. *)
Theorem terminal_status_absorbing id j ops q :
  jobs q !! id = Some j →
  is_terminal (status j) = true →
  forallb (λ op, negb (overwrites id op)) ops = true →
  (jobs (run ops q) !! id = Some j
   ∨ (existsb is_cleanup ops = true ∧ jobs (run ops q) !! id = None))
  ∧ (existsb is_cleanup ops = false →
     get_job_status id (run ops q) = (Return (status_of j), run ops q)).
Proof.
  intros Hj Ht Hok.
  assert (H : jobs (run ops q) !! id = Some j
              ∨ (existsb is_cleanup ops = true ∧ jobs (run ops q) !! id = None)).
  { induction ops as [|op ops IH] using rev_ind; [by left|].
    rewrite forallb_app in Hok. apply andb_true_iff in Hok as [Hops Hop].
    simpl in Hop. rewrite andb_true_r, negb_true_iff in Hop.
    rewrite run_snoc, existsb_app. simpl. rewrite orb_false_r.
    destruct (IH Hops) as [Hs | [Hc Hn]].
    - destruct (step_keeps_terminal id j op (run ops q) Hop Hs Ht) as [?|[Hc ?]];
        [by left|]. right. by rewrite Hc, orb_true_r.
    - right. rewrite Hc. split; [done|].
      apply step_keeps_absent; [|done].
      destruct op; simpl in *; done. }
  split; [done|]. intros Hnc.
  destruct H as [Hs | [Hc _]]; [|congruence].
  by apply get_job_status_terminal.
Qed.

(** *** C4 *)

(** C4 (as amended). A poll of an identifier that is not in the job table
    returns not_found and changes nothing; an identifier never enqueued is
    not in the table, and neither is one whose record a cleanup removed.
    After [enqueue_job] returned for [id], and until a cleanup deletes the
    record, no poll of [id] returns not_found, provided no
    [update_job_status] call stored the status not_found itself. *)
Theorem not_found_iff_unknown id :
  (∀ q, jobs q !! id = None →
        get_job_status id q
        = (Return (mkStatusDict "not_found" f0_0 "Job not found"), q))
  ∧ (∀ ops, forallb (λ op, negb (enqueues id op)) ops = true →
            jobs (run ops (@new_queue Task)) !! id = None)
  ∧ (∀ q age now j,
        jobs q !! id = Some j → to_remove (cutoff_time age now) j = true →
        jobs (snd (cleanup_completed_jobs age now q)) !! id = None)
  ∧ (∀ q (func : Task) now q1 ops,
        enqueue_job id func now q = (Return tt, q1) →
        forallb (λ op, negb (writes_status id "not_found" op)) ops = true →
        (existsb is_cleanup ops = true ∧ jobs (run ops q1) !! id = None)
        ∨ (is_Some (jobs (run ops q1) !! id)
           ∧ ∀ sd, fst (get_job_status id (run ops q1)) = Return sd →
                   sd_status sd ≠ "not_found")).
Proof.
  split; [|split; [|split]].
  - apply get_job_status_unknown.
  - intros ops Hok.
    apply (run_invariant (λ q, jobs q !! id = None)
             (λ op, negb (enqueues id op))); [|done..].
    intros q op Hop. apply step_keeps_absent. by apply negb_true_iff.
  - intros q age now j Hj Hr. by rewrite cleanup_lookup, Hj, Hr.
  - intros q func now q1 ops Henq Hok.
    assert (Hq1 : ∃ j, jobs q1 !! id = Some j ∧ status j ≠ "not_found").
    { destruct (enqueue_job_status id func now q) as (j & Hj & Hs).
      rewrite Henq in Hj. exists j. split; [done|].
      destruct Hs as [-> | ->]; done. }
    destruct Hq1 as (j1 & Hj1 & Hs1).
    assert (Hst : ∀ j, jobs (run ops q1) !! id = Some j → status j ≠ "not_found").
    { apply (run_invariant
               (λ q, ∀ j, jobs q !! id = Some j → status j ≠ "not_found")
               (λ op, negb (writes_status id "not_found" op))); [|done|].
      - intros q' op Hop. apply step_keeps_status_apart; try done.
        by apply negb_true_iff.
      - intros j. rewrite Hj1. by intros [= <-]. }
    assert (Hpres : is_Some (jobs (run ops q1) !! id)
                    ∨ existsb is_cleanup ops = true).
    { clear Hok Hst. induction ops as [|op ops IH] using rev_ind; [left; eauto|].
      rewrite run_snoc, existsb_app. simpl. rewrite orb_false_r.
      destruct IH as [Hp | ->]; [|by right].
      destruct (is_cleanup op) eqn:Hc; [right; by rewrite orb_true_r|].
      left. by apply step_keeps_present. }
    destruct (jobs (run ops q1) !! id) as [j|] eqn:Hj.
    + right. split; [eauto|]. intros sd Hsd.
      destruct (get_job_status_status id j _ Hj) as (j' & Hj' & Hs).
      destruct (get_job_status_returns_record id (run ops q1) sd) as (j'' & Hj'' & ->);
        [by rewrite Hj; eauto | done |].
      rewrite Hj' in Hj''. injection Hj'' as <-. simpl.
      destruct Hs as [-> | [-> | ->]]; [by apply Hst | done..].
    + left. destruct Hpres as [[? [=]] | ?]. done.
Qed.

End Facts.

(** C9, on a queue that holds the running job ["j"], with an update for
    the unknown identifier ["ghost"]. *)
Lemma update_job_status_unknown_noop_witness :
  update_job_status "ghost" "completed" f1_0 "done" one_in_progress
    = (Return tt, one_in_progress)
  ∧ ∀ q' : JobQueue unit,
      fst (update_job_status "ghost" "completed" f1_0 "done" q') = Return tt.
Proof.
  apply (update_job_status_unknown_noop "ghost" "completed" f1_0 "done"
           one_in_progress).
  reflexivity.
Defined.

(** C2 as first stated fails: a task that ended with [SystemExit] is done
    and its record is running, yet the poll raises instead of returning a
    dictionary and the record is still running afterwards. *)
Lemma get_job_status_reraises_SystemExit :
  (∃ job, jobs one_exited !! "j" = Some job
          ∧ done (future_state (executor one_exited) (future job)) = true
          ∧ is_terminal (status job) = false
          ∧ result (future_state (executor one_exited) (future job))
            = Raise SystemExit)
  ∧ fst (get_job_status "j" one_exited) = Raise SystemExit
  ∧ status <$> jobs (snd (get_job_status "j" one_exited)) !! "j" = Some "running".
Proof.
  split; [|split]; [|vm_compute; reflexivity..].
  eexists. split; [vm_compute; reflexivity|]. by vm_compute.
Qed.

(** C2, on a task that raised a [ValueError]. *)
Lemma get_job_status_resolves_witness :
  ∃ q' j',
    get_job_status "j" one_raised = (Return (status_of j'), q')
    ∧ jobs q' !! "j" = Some j'
    ∧ status j' = "failed" ∧ message j' = "Job failed: bad input"
    ∧ ∀ id', id' ≠ "j" → jobs q' !! id' = jobs one_raised !! id'.
Proof.
  apply (get_job_status_resolves "j"
           (mkJob "running" f0_6 "Simulation completed" 0 (Some 0%nat))
           one_raised); by vm_compute.
Defined.



(** C1 as first stated fails: [update_job_status] overwrites a completed
    record, and after such an overwrite a poll of a job that had failed
    returns completed. *)
Lemma update_job_status_overwrites_terminal :
  status <$> jobs one_completed !! "j" = Some "completed"
  ∧ status <$> jobs (snd (update_job_status "j" "running" f0_9
                            "Optimization completed" one_completed)) !! "j"
    = Some "running"
  ∧ fst (get_job_status "j" one_failed)
    = Return (mkStatusDict "failed" f0_0 "Experiment failed: bad input")
  ∧ fst (get_job_status "j"
           (snd (update_job_status "j" "running" f0_9
                   "Optimization completed" one_failed)))
    = Return (mkStatusDict "completed" f1_0 "Job completed").
Proof. by vm_compute. Qed.

(** The same loss of a failed status without any later update: when the
    task finishes before [enqueue_job] reaches its second locked block,
    that block sets the record back to running and the next poll reports
    the job completed. *)
Lemma enqueue_job_overtaken_by_task :
  status <$> jobs (run (take 4 overtaken_trace) new_queue) !! "j" = Some "failed"
  ∧ status <$> jobs overtaken !! "j" = Some "running"
  ∧ fst (get_job_status "j" overtaken)
    = Return (mkStatusDict "completed" f1_0 "Job completed").
Proof. by vm_compute. Qed.

(** C1, on the completed job ["j"] and [interleaved_trace]. *)
Lemma terminal_status_absorbing_witness :
  get_job_status "j" (run interleaved_trace one_completed)
  = (Return (mkStatusDict "completed" f1_0 "Job completed"),
     run interleaved_trace one_completed).
Proof.
  apply (proj2 (terminal_status_absorbing "j"
                  (mkJob "completed" f1_0 "Job completed" 0 (Some 0%nat))
                  interleaved_trace one_completed
                  ltac:(vm_compute; reflexivity) ltac:(vm_compute; reflexivity)
                  ltac:(vm_compute; reflexivity))).
  vm_compute; reflexivity.
Defined.

(** C4 as first stated fails: after [enqueue_job] returned, and with no
    cleanup, an update that carries the status not_found makes the poll
    return not_found. *)
Lemma update_job_status_can_store_not_found :
  enqueue_job "j" tt 0 new_queue = (Return tt, one_running)
  ∧ fst (get_job_status "j"
           (snd (update_job_status "j" "not_found" f0_0 "x" one_running)))
    = Return (mkStatusDict "not_found" f0_0 "x").
Proof. by vm_compute. Qed.

(** C4, on the job ["j"] of [one_running] and [busy_trace]. *)
Lemma not_found_iff_unknown_witness :
  (existsb is_cleanup busy_trace = true
   ∧ jobs (run busy_trace one_running) !! "j" = None)
  ∨ (is_Some (jobs (run busy_trace one_running) !! "j")
     ∧ ∀ sd, fst (get_job_status "j" (run busy_trace one_running)) = Return sd →
             sd_status sd ≠ "not_found").
Proof.
  apply (proj2 (proj2 (proj2 (not_found_iff_unknown "j")))
           new_queue tt 0%Z one_running busy_trace); reflexivity.
Defined.

End WorkerFacts.

(** * Properties of the optimizer wrapper *)
Module EngineFacts.
Import Engine Scenario.

Section Facts.
Context {Model : Type}.
Variable predict : Model -> Row -> PyResult float.
Variable minimize : MinimizeCall -> PyResult OptimizeResult.

(** C7. When the minimizer returns without convergence,
    [optimize_fuel_mixture] raises nothing: it returns the failure
    dictionary, success flag false, with the solver's message as error;
    [minimize] has been called once, with the declared objective, bounds,
    constraint and starting point, and not again. *)
Theorem optimize_fuel_mixture_non_convergence model alpha max_temp r :
  minimize (minimize_call predict model alpha max_temp) = Return r →
  res_success r = false →
  ∃ o, optimize_fuel_mixture predict minimize model alpha max_temp
       = ([minimize_call predict model alpha max_temp], Return o)
       ∧ o = OptFailure (res_message r)
       ∧ success o = false.
Proof.
  intros Hr Hs. eexists. split; [|done].
  unfold optimize_fuel_mixture. by rewrite Hr, Hs.
Qed.

(** What the success branch returns: the three coordinates found by the
    one [minimize] call, in their order, and the constant impulse 300.0.
    Whether those coordinates respect the bounds and the constraint handed
    to the minimizer is the minimizer's matter. *)
Lemma optimize_fuel_mixture_success_shape model alpha max_temp p t v :
  snd (optimize_fuel_mixture predict minimize model alpha max_temp)
  = Return (OptSuccess p t v) →
  ∃ r, minimize (minimize_call predict model alpha max_temp) = Return r
       ∧ res_success r = true
       ∧ res_x r = (O_F_ratio p, pressure p, temp p)
       ∧ isp p = f300
       ∧ v = res_fun r.
Proof.
  unfold optimize_fuel_mixture. simpl.
  destruct (minimize _) as [r|e]; [|done].
  destruct (res_success r) eqn:Hs; [|done].
  destruct (res_x r) as [[x0 x1] x2] eqn:Hx.
  destruct (simulate _ _ _); [|done].
  intros [= <- <- <-]. exists r. by rewrite Hx.
Qed.

End Facts.

(** C7, on a minimizer that reports the iteration limit. *)
Lemma optimize_fuel_mixture_non_convergence_witness :
  ∃ o, optimize_fuel_mixture const_predict minimize_gives_up tt f0_5 (Some f4000)
       = ([minimize_call const_predict tt f0_5 (Some f4000)], Return o)
       ∧ o = OptFailure "Iteration limit reached"
       ∧ success o = false.
Proof.
  apply (optimize_fuel_mixture_non_convergence const_predict minimize_gives_up
           tt f0_5 (Some f4000)
           (mkOptimizeResult false initial_guess f0_0 "Iteration limit reached"));
    reflexivity.
Defined.

End EngineFacts.

(** * Properties of the request handler and the task *)
Module ApiFacts.
Import Worker Engine Api Scenario.

Section Facts.
Context {Model Metrics : Type}.
Variable predict : Model -> Row -> PyResult float.
Variable minimize : MinimizeCall -> PyResult OptimizeResult.
Variable train : PyResult (Model * Metrics).
Implicit Types (q : JobQueue ExperimentParams) (w : World Model Metrics)
  (s : TaskState Model Metrics) (d : Session Metrics).

(** *** The queue as the task sees it *)

Lemma update_job_status_returns id st pr msg q :
  update_job_status id st pr msg q
  = (Return tt, snd (update_job_status id st pr msg q)).
Proof. unfold update_job_status. by destruct (jobs q !! id). Qed.

Lemma update_job_status_lookup id st pr msg j q :
  jobs q !! id = Some j →
  jobs (snd (update_job_status id st pr msg q)) !! id
  = Some (mkJob st pr msg (created_at j) (future j)).
Proof.
  intros Hj. unfold update_job_status. rewrite Hj. simpl.
  apply lookup_insert_eq.
Qed.

Lemma job_queue_update_run id st pr msg s :
  job_queue_update id st pr msg s
  = (Return tt,
     mkTaskState (snd (update_job_status id st pr msg (ts_queue s)))
                 (ts_session s) (ts_cache s)).
Proof.
  unfold job_queue_update. by rewrite update_job_status_returns.
Qed.

(** The updates the task pushes never register or drop a record. *)
Lemma update_job_status_is_Some id id' st pr msg q :
  is_Some (jobs (snd (update_job_status id' st pr msg q)) !! id)
  ↔ is_Some (jobs q !! id).
Proof.
  destruct (decide (id = id')) as [<-|Hne].
  - unfold update_job_status. destruct (jobs q !! id) as [j|] eqn:Hj; simpl.
    + rewrite lookup_insert_eq. split; eauto.
    + by rewrite Hj.
  - by rewrite WorkerFacts.update_job_status_other.
Qed.

(** *** The task *)

#[local] Opaque optimize_fuel_mixture simulate update_job_status.

(** Closes a case of the [try] block once it is evaluated: the state
    reached is the one claimed, and the progress updates on the way have
    registered and dropped no record. *)
Ltac same_records :=
  eexists _, _; (split; [|reflexivity]);
  intros ?; rewrite ?update_job_status_is_Some; done.

Lemma task_try_run job_id params now s exp :
  ts_session s = get_db (store (ts_session s)) →
  experiments (store (ts_session s)) !! job_id = Some exp →
  results (store (ts_session s)) !! job_id = None →
  ∃ q1 c1,
    (∀ id, is_Some (jobs q1 !! id) ↔ is_Some (jobs (ts_queue s) !! id))
    ∧ match pipeline predict minimize train (ts_cache s) params with
      | Raise e =>
          task_try predict minimize train job_id params now s
          = (Raise e, mkTaskState q1 (ts_session s) c1)
      | Return res =>
          task_try predict minimize train job_id params now s
          = (Return tt,
             mkTaskState
               (snd (update_job_status job_id "completed" f1_0
                       "Experiment completed successfully" q1))
               (get_db
                  (mkDatabase
                     (alter (with_status "completed") job_id
                            (experiments (store (ts_session s))))
                     (<[job_id := mkResult "completed" (Some res) None (Some now)]>
                        (results (store (ts_session s))))))
               c1)
      end.
Proof.
  destruct s as [q [db ne nr di ia] cache]. unfold get_db. simpl.
  intros [= -> -> -> ->] Hexp Hres.
  unfold task_try, pipeline, load_model.
  unfold mbind, M_bind, bind.
  rewrite job_queue_update_run. simpl.
  unfold get_or_train_model. simpl.
  destruct cache as [[model metrics]|]; [|destruct train as [[model metrics]|e]].
  3: same_records.
  all: rewrite job_queue_update_run; simpl; unfold lift.
  all: destruct (simulate predict _ model) as [sim|e].
  2,4: same_records.
  all: rewrite job_queue_update_run; simpl.
  all: destruct (ep_alpha params) as [alpha|]; simpl.
  1,3: destruct (snd (optimize_fuel_mixture predict minimize model alpha _)) as [o|e]; simpl.
  2,4: same_records.
  all: rewrite job_queue_update_run; simpl.
  all: unfold on_session, first_experiment, query_experiment,
         set_experiment_status, commit; simpl.
  all: rewrite Hexp; simpl; rewrite Hres; simpl.
  all: rewrite job_queue_update_run; simpl.
  all: same_records.
Qed.

Lemma task_except_run job_id now e s exp :
  ts_session s = get_db (store (ts_session s)) →
  experiments (store (ts_session s)) !! job_id = Some exp →
  results (store (ts_session s)) !! job_id = None →
  task_except job_id now e s
  = (Return tt,
     mkTaskState
       (snd (update_job_status job_id "failed" f0_0
               ("Experiment failed: " +:+ exc_str e) (ts_queue s)))
       (get_db
          (mkDatabase
             (alter (with_status "failed") job_id
                    (experiments (store (ts_session s))))
             (<[job_id := mkResult "failed" None (Some (exc_str e)) (Some now)]>
                (results (store (ts_session s))))))
       (ts_cache s)).
Proof.
  destruct s as [q [db ne nr di ia] cache]. unfold get_db. simpl.
  intros [= -> -> -> ->] Hexp Hres.
  unfold task_except. unfold mbind, M_bind, bind.
  unfold on_session, first_experiment, query_experiment,
    set_experiment_status, commit. simpl.
  rewrite Hexp. simpl. rewrite Hres. simpl.
  by rewrite job_queue_update_run.
Qed.

(** The task as a whole, on a database that holds the experiment row of
    the job and no result for it. *)
Lemma run_experiment_task_run job_id params now w exp :
  experiments (w_db w) !! job_id = Some exp →
  results (w_db w) !! job_id = None →
  ∃ q1 c1,
    (∀ id, is_Some (jobs q1 !! id) ↔ is_Some (jobs (w_queue w) !! id))
    ∧ _run_experiment_task predict minimize train job_id params now w
      = match pipeline predict minimize train (w_cache w) params with
        | Return res =>
            (Return tt,
             mkWorld
               (snd (update_job_status job_id "completed" f1_0
                       "Experiment completed successfully" q1))
               (mkDatabase
                  (alter (with_status "completed") job_id (experiments (w_db w)))
                  (<[job_id := mkResult "completed" (Some res) None (Some now)]>
                     (results (w_db w))))
               c1)
        | Raise e =>
            if exc_is_Exception e then
              (Return tt,
               mkWorld
                 (snd (update_job_status job_id "failed" f0_0
                         ("Experiment failed: " +:+ exc_str e) q1))
                 (mkDatabase
                    (alter (with_status "failed") job_id (experiments (w_db w)))
                    (<[job_id := mkResult "failed" None (Some (exc_str e)) (Some now)]>
                       (results (w_db w))))
                 c1)
            else (Raise e, mkWorld q1 (w_db w) c1)
        end.
Proof.
  intros Hexp Hres. destruct w as [q db cache]. simpl in *.
  destruct (task_try_run job_id params now (mkTaskState q (get_db db) cache) exp)
    as (q1 & c1 & Hdom & Htry); [done..|].
  exists q1, c1. split; [done|].
  unfold _run_experiment_task, try_except. simpl in *.
  destruct (pipeline predict minimize train cache params) as [res|e];
    rewrite Htry; [done|].
  destruct (exc_is_Exception e); [|done].
  by rewrite (task_except_run job_id now e _ exp).
Qed.

(** *** C5 *)

(** C5 (as amended). On a database that holds the experiment row of the
    job and no result for it: when model loading, simulation and the
    requested optimization all return, the task returns and has written
    exactly one Result, completed, holding the simulation and, when alpha
    was given, the optimization; when one of the three raises a fault of
    class [Exception], after a successful simulation too, the task returns
    and has written exactly one Result, failed, with the fault's text and
    no payload; a fault outside [Exception] leaves the task uncaught and
    the database as it was. *)
Theorem run_experiment_task_all_or_nothing job_id params now w exp :
  experiments (w_db w) !! job_id = Some exp →
  results (w_db w) !! job_id = None →
  let out := _run_experiment_task predict minimize train job_id params now w in
  match pipeline predict minimize train (w_cache w) params with
  | Return res =>
      fst out = Return tt
      ∧ results (w_db (snd out))
        = <[job_id := mkResult "completed" (Some res) None (Some now)]>
            (results (w_db w))
      ∧ (is_Some (ep_alpha params) → is_Some (optimization res))
  | Raise e =>
      if exc_is_Exception e then
        fst out = Return tt
        ∧ results (w_db (snd out))
          = <[job_id := mkResult "failed" None (Some (exc_str e)) (Some now)]>
              (results (w_db w))
      else fst out = Raise e ∧ w_db (snd out) = w_db w
  end.
Proof.
  intros Hexp Hres out.
  destruct (run_experiment_task_run job_id params now w exp Hexp Hres)
    as (q1 & c1 & _ & Hrun).
  subst out. rewrite Hrun. clear Hrun.
  destruct (pipeline predict minimize train (w_cache w) params) as [res|e] eqn:Hp.
  - repeat split. intros [alpha Ha]. revert Hp. unfold pipeline.
    destruct (load_model _ _) as [[model metrics]|]; [|done].
    destruct (simulate _ _ _); [|done]. rewrite Ha.
    destruct (snd _); [|done]. intros [= <-]. simpl. eauto.
  - by destruct (exc_is_Exception e).
Qed.

(** *** C10 *)

(** C10 (as amended). A poll that resolves a future which raised, that is
    one whose fault is of class [Exception], stores and returns progress
    0.0, whatever progress the record carried before; and a task whose
    computation raised a fault of class [Exception], on a database that
    holds the experiment row of the job and no result for it, leaves the
    record of its job failed with progress 0.0 as well. *)
Theorem failure_resets_progress :
  (∀ q id job e,
      jobs q !! id = Some job →
      future_state (executor q) (future job) = Raised e →
      exc_is_Exception e = true →
      is_terminal (status job) = false →
      ∃ q' j',
        get_job_status id q = (Return (status_of j'), q')
        ∧ jobs q' !! id = Some j'
        ∧ status j' = "failed" ∧ progress j' = f0_0)
  ∧ (∀ w job_id params now exp job e,
        experiments (w_db w) !! job_id = Some exp →
        results (w_db w) !! job_id = None →
        jobs (w_queue w) !! job_id = Some job →
        pipeline predict minimize train (w_cache w) params = Raise e →
        exc_is_Exception e = true →
        ∃ j',
          jobs (w_queue (snd (_run_experiment_task predict minimize train
                                job_id params now w))) !! job_id = Some j'
          ∧ status j' = "failed" ∧ progress j' = f0_0
          ∧ message j' = "Experiment failed: " +:+ exc_str e).
Proof.
  split.
  - intros q id job e. apply WorkerFacts.get_job_status_failed_progress.
  - intros w job_id params now exp job e Hexp Hres Hjob Hp He.
    destruct (run_experiment_task_run job_id params now w exp Hexp Hres)
      as (q1 & c1 & Hdom & Hrun).
    rewrite Hrun, Hp, He. simpl.
    destruct (proj2 (Hdom job_id)) as [j1 Hj1]; [eauto|].
    rewrite (update_job_status_lookup _ _ _ _ j1 q1 Hj1). eauto.
Qed.

#[local] Transparent optimize_fuel_mixture simulate update_job_status.

(** *** C8 *)

(** C8 (as amended). A [POST /run] whose body carries an O/F ratio outside
    [2, 6], a pressure outside [1, 10], a temperature outside [2500, 5000],
    an impulse outside [200, 450] or an alpha outside [0, 1] is refused
    before the handler runs: the answer is never 200, and neither the
    database nor the job queue has changed. When every number of the body
    is finite the answer is 422. *)
Theorem post_run_rejects_out_of_bounds body job_id now enqueued w :
  outside f2 f6 (b_O_F_ratio body)
  || outside f1_0 f10 (b_pressure body)
  || outside f2500 f5000 (b_temp body)
  || outside f200 f450 (b_isp body)
  || outside f0_0 f1_0 (b_alpha body) = true →
  snd (post_run body job_id now enqueued w) = w
  ∧ (∀ r, fst (post_run body job_id now enqueued w)
          ≠ Http200 r)
  ∧ (body_finite body = true →
     post_run body job_id now enqueued w = (Http422, w)).
Proof.
  intros H. unfold post_run.
  assert (Hv : validate body = None).
  { unfold validate, required_float, optional_bounded.
    unfold outside in H.
    destruct (b_O_F_ratio body) as [| |x1]; try done.
    destruct (in_range f2 f6 x1); [|done].
    destruct (b_pressure body) as [| |x2]; try done.
    destruct (in_range f1_0 f10 x2); [|done].
    destruct (b_temp body) as [| |x3]; try done.
    destruct (in_range f2500 f5000 x3); [|done].
    destruct (b_isp body) as [| |x4]; try done.
    destruct (in_range f200 f450 x4); [|done].
    destruct (b_alpha body) as [| |x5]; try done.
    by destruct (in_range f0_0 f1_0 x5). }
  rewrite Hv. split; [by destruct (error_body_renders body)|].
  split; [by destruct (error_body_renders body)|].
  intros Hf.
  assert (Hr : error_body_renders body = true); [|by rewrite Hr].
  unfold body_finite in Hf. unfold error_body_renders.
  repeat (apply andb_true_iff in Hf as [Hf ?]).
  repeat (apply andb_true_iff; split); try done.
  rewrite H0. by case_match.
Qed.

End Facts.

(** C8 as first stated fails: an O/F ratio of [1e999], which the JSON
    parser reads as infinity, lies outside [2, 6], and the answer is a
    server error, not 422. *)
Lemma post_run_infinite_ratio_answers_500 :
  outside f2 f6 (b_O_F_ratio infinite_body) = true
  ∧ post_run infinite_body "k" 7 8 submitted_world
    = (Http500 not_json_compliant, submitted_world).
Proof. by vm_compute. Qed.

(** C8, on the body of the validation test (O/F ratio 10.0), sent to a
    service that already holds a job. *)
Lemma post_run_rejects_out_of_bounds_witness :
  post_run invalid_body "k" 7 8 submitted_world = (Http422, submitted_world).
Proof.
  apply (proj2 (proj2
           (post_run_rejects_out_of_bounds invalid_body "k" 7%Z 8%Z
              submitted_world ltac:(vm_compute; reflexivity))));
    vm_compute; reflexivity.
Defined.

(** C5 as first stated fails. A model whose inference leaves through
    [SystemExit] is not caught by the task: the fault escapes and no
    Result is written. And when the experiment row is missing, the
    assignment to its status raises inside the [try] block and again
    inside the handler: the fault escapes and no Result is written. *)
Lemma run_experiment_task_uncaught :
  (fst (_run_experiment_task exiting_predict minimize_gives_up train_once
          "j" valid_params 5 submitted_world) = Raise SystemExit
   ∧ results (w_db (snd (_run_experiment_task exiting_predict minimize_gives_up
                           train_once "j" valid_params 5 submitted_world))) = ∅)
  ∧ (fst (_run_experiment_task const_predict minimize_gives_up train_once
            "j" valid_params 5 orphaned_world)
     = Raise (AttributeError "'NoneType' object has no attribute 'status'")
     ∧ results (w_db (snd (_run_experiment_task const_predict minimize_gives_up
                             train_once "j" valid_params 5 orphaned_world))) = ∅).
Proof. by vm_compute. Qed.

(** C5, on a simulation that succeeds followed by an optimization that
    raises. *)
Lemma run_experiment_task_all_or_nothing_witness :
  fst (_run_experiment_task const_predict minimize_raises train_once
         "j" valid_params 5 submitted_world) = Return tt
  ∧ results (w_db (snd (_run_experiment_task const_predict minimize_raises
                          train_once "j" valid_params 5 submitted_world)))
    = <["j" := mkResult "failed" None (Some "bad input") (Some 5%Z)]>
        (results (w_db submitted_world)).
Proof.
  exact (run_experiment_task_all_or_nothing const_predict minimize_raises
           train_once "j" valid_params 5%Z submitted_world
           (mkExperiment valid_params "queued" 0)
           ltac:(vm_compute; reflexivity) ltac:(vm_compute; reflexivity)).
Defined.

(** C10 as first stated fails for the task: a task whose model leaves
    through [SystemExit] never reaches its handler. The record of its job
    keeps the progress 0.3 it pushed last, and keeps it for good: the poll
    of the finished future raises and resolves nothing. *)
Lemma failed_task_keeps_progress :
  fst exited_task = Raise SystemExit
  ∧ jobs (w_queue (snd exited_task)) !! "j"
    = Some (mkJob "running" f0_3 "Model loaded" 1 (Some 0%nat))
  ∧ fst (get_job_status "j" exited_queue) = Raise SystemExit
  ∧ jobs (snd (get_job_status "j" exited_queue)) !! "j"
    = Some (mkJob "running" f0_3 "Model loaded" 1 (Some 0%nat)).
Proof. by vm_compute. Qed.

(** C10, on a poll of a job whose task raised after pushing progress 0.6,
    and on a task whose model raises after the progress 0.3 was pushed. *)
Lemma failure_resets_progress_witness :
  progress <$> jobs in_progress_raised !! "j" = Some f0_6
  ∧ (∃ q' j',
        get_job_status "j" in_progress_raised = (Return (status_of j'), q')
        ∧ jobs q' !! "j" = Some j'
        ∧ status j' = "failed" ∧ progress j' = f0_0)
  ∧ (∃ j',
        jobs (w_queue (snd (_run_experiment_task failing_predict minimize_gives_up
                              train_once "j" valid_params 5 submitted_world)))
          !! "j" = Some j'
        ∧ status j' = "failed" ∧ progress j' = f0_0
        ∧ message j' = "Experiment failed: bad input").
Proof.
  destruct (failure_resets_progress failing_predict minimize_gives_up train_once)
    as [Hpoll Htask].
  split; [vm_compute; reflexivity|]. split.
  - apply (Hpoll in_progress_raised "j"
             (mkJob "running" f0_6 "Simulation completed" 1 (Some 0%nat))
             ValueError);
      vm_compute; reflexivity.
  - apply (Htask submitted_world "j" valid_params 5%Z
             (mkExperiment valid_params "queued" 0)
             (mkJob "running" f0_0 "Job queued" 1 (Some 0%nat)) ValueError);
      vm_compute; reflexivity.
Defined.

End ApiFacts.

(** * Further properties of the job queue *)
Module WorkerMore.
Import Worker Invariants Scenario MoreScenarios.

Section Facts.
Context {Task : Type}.
Implicit Types (q : JobQueue Task) (j : Job) (id : string).

Lemma not_terminal_not_failed (s : string) :
  is_terminal s = false → String.eqb s "failed" = false.
Proof. unfold is_terminal. intros H. by apply orb_false_elim in H as [_ ?]. Qed.

(** X1. A poll repeated at once gives the same answer and the same queue
    as the first: what a poll resolves, it resolves once. *)
Theorem get_job_status_idempotent id q :
  Worker.get_job_status id (snd (Worker.get_job_status id q))
  = (fst (Worker.get_job_status id q), snd (Worker.get_job_status id q)).
Proof.
  unfold Worker.get_job_status at 2 3 4.
  destruct (jobs q !! id) as [job|] eqn:Hj.
  - destruct (done _ && negb _) eqn:Hc.
    + apply andb_true_iff in Hc as [Hd Ht]. apply negb_true_iff in Ht.
      destruct (result _) as [[]|e] eqn:Hr;
        [|destruct (exc_is_Exception e) eqn:He]; simpl.
      * rewrite (not_terminal_not_failed _ Ht). simpl.
        apply WorkerFacts.get_job_status_terminal; [|done].
        simpl. apply lookup_insert_eq.
      * apply WorkerFacts.get_job_status_terminal; [|done].
        simpl. apply lookup_insert_eq.
      * unfold Worker.get_job_status. by rewrite Hj, Hd, Ht, Hr, He.
    + simpl. unfold Worker.get_job_status. by rewrite Hj, Hc.
  - simpl. by apply WorkerFacts.get_job_status_unknown.
Qed.

(** *** What a poll leaves alone *)

Lemma get_job_status_executor id q :
  executor (snd (Worker.get_job_status id q)) = executor q.
Proof.
  unfold Worker.get_job_status.
  destruct (jobs q !! id) as [job|]; [|done].
  destruct (done _ && _); [|done].
  destruct (result _) as [[]|e]; [|destruct (exc_is_Exception e)]; done.
Qed.

Lemma get_job_status_keeps_future id j q :
  jobs q !! id = Some j →
  ∃ j', jobs (snd (Worker.get_job_status id q)) !! id = Some j'
        ∧ created_at j' = created_at j ∧ future j' = future j.
Proof.
  intros Hj. unfold Worker.get_job_status. rewrite Hj.
  destruct (done _ && _); [|eauto].
  destruct (result _) as [[]|e]; [|destruct (exc_is_Exception e)]; simpl.
  - rewrite lookup_insert_eq. destruct (negb _); eauto.
  - rewrite lookup_insert_eq. eauto.
  - eauto.
Qed.

(** X2. A poll writes nothing but the status, progress and message of the
    record it polls: the pool, the set of registered identifiers, every
    other record, and the creation time and future of the polled record
    are as before. *)
Theorem get_job_status_frame id q :
  executor (snd (Worker.get_job_status id q)) = executor q
  ∧ dom (jobs (snd (Worker.get_job_status id q))) = dom (jobs q)
  ∧ (∀ id', id' ≠ id →
       jobs (snd (Worker.get_job_status id q)) !! id' = jobs q !! id')
  ∧ (∀ j, jobs q !! id = Some j →
       ∃ j', jobs (snd (Worker.get_job_status id q)) !! id = Some j'
             ∧ created_at j' = created_at j ∧ future j' = future j).
Proof.
  split; [apply get_job_status_executor|].
  split; [|split].
  - apply set_eq. intros id'. rewrite !elem_of_dom.
    destruct (decide (id' = id)) as [->|Hne].
    + destruct (jobs q !! id) as [j|] eqn:Hj.
      * destruct (get_job_status_keeps_future id j q Hj) as (j' & -> & _).
        split; eauto.
      * rewrite WorkerFacts.get_job_status_unknown by done. simpl. by rewrite Hj.
    + by rewrite WorkerFacts.get_job_status_other.
  - intros id' Hne. by apply WorkerFacts.get_job_status_other.
  - intros j. apply get_job_status_keeps_future.
Qed.

(** X3. Progress pushed by a task is what the next poll returns, as long
    as the task's future is not done yet or the pushed status is terminal:
    the poll then returns exactly the status, progress and message of the
    update and changes nothing. *)
Theorem update_then_poll id st pr msg j q :
  jobs q !! id = Some j →
  done (future_state (executor q) (future j)) = false ∨ is_terminal st = true →
  Worker.get_job_status id (snd (update_job_status id st pr msg q))
  = (Return (mkStatusDict st pr msg), snd (update_job_status id st pr msg q)).
Proof.
  intros Hj Hc. unfold update_job_status. rewrite Hj. simpl.
  unfold Worker.get_job_status. simpl. rewrite lookup_insert_eq. simpl.
  destruct Hc as [-> | ->]; [done|]. by rewrite andb_false_r.
Qed.

(** *** Cleanup *)

(** X4. Whatever the maximal age and the time of the call, a cleanup
    never touches the pool, never removes a record that is not completed
    or failed, and adds or changes no record: a record found after the
    cleanup was there before it, unchanged. *)
Theorem cleanup_completed_jobs_keeps_and_removes age now q :
  executor (snd (cleanup_completed_jobs age now q)) = executor q
  ∧ (∀ id j, jobs q !! id = Some j → is_terminal (status j) = false →
       jobs (snd (cleanup_completed_jobs age now q)) !! id = Some j)
  ∧ (∀ id j, jobs (snd (cleanup_completed_jobs age now q)) !! id = Some j →
       jobs q !! id = Some j).
Proof.
  split; [done|]. split; intros id j.
  - intros Hj Ht. rewrite WorkerFacts.cleanup_lookup, Hj.
    unfold to_remove. by rewrite Ht.
  - rewrite WorkerFacts.cleanup_lookup.
    destruct (jobs q !! id) as [j0|]; [|done].
    by destruct (to_remove _ j0).
Qed.

Lemma to_remove_mono (c1 c2 : Z) j :
  (c2 ≤ c1)%Z → to_remove c2 j = true → to_remove c1 j = true.
Proof.
  unfold to_remove. intros Hc H. apply andb_true_iff in H as [-> H].
  apply Z.ltb_lt in H. simpl. apply Z.ltb_lt. lia.
Qed.

(** X5. Of two cleanups at the same time the one with the smaller maximal
    age decides: run after it, or before it, the one with the larger age
    changes nothing. In particular a cleanup repeated with the same
    arguments changes nothing. *)
Theorem cleanup_completed_jobs_subsumes age1 age2 now q :
  (age1 ≤ age2)%Z →
  snd (cleanup_completed_jobs age2 now (snd (cleanup_completed_jobs age1 now q)))
  = snd (cleanup_completed_jobs age1 now q)
  ∧ snd (cleanup_completed_jobs age1 now (snd (cleanup_completed_jobs age2 now q)))
    = snd (cleanup_completed_jobs age1 now q).
Proof.
  intros Hage.
  assert (Hc : (cutoff_time age2 now ≤ cutoff_time age1 now)%Z).
  { unfold cutoff_time. lia. }
  assert (Heq : ∀ a b : JobQueue Task,
             executor a = executor b → (∀ id, jobs a !! id = jobs b !! id) → a = b).
  { intros [ea ja] [eb jb]. simpl. intros -> H. f_equal. by apply map_eq. }
  split; apply Heq; try done; intros id; rewrite !WorkerFacts.cleanup_lookup.
  - destruct (jobs q !! id) as [j|]; [|done].
    destruct (to_remove (cutoff_time age1 now) j) eqn:H1; [done|].
    destruct (to_remove (cutoff_time age2 now) j) eqn:H2; [|done].
    by rewrite (to_remove_mono _ _ j Hc H2) in H1.
  - destruct (jobs q !! id) as [j|]; [|done].
    destruct (to_remove (cutoff_time age2 now) j) eqn:H2; [|done].
    by rewrite (to_remove_mono _ _ j Hc H2).
Qed.

(** *** Futures and records *)

Lemma enqueue_job_open id (func : Task) now q :
  is_shutdown (executor q) = false →
  enqueue_job id func now q
  = (Return tt,
     mkJobQueue
       (mkExecutor (futures (executor q) ++ [mkWorkItem func id Pending]) false)
       (<[id := mkJob "running" f0_0 "Job queued" now
                  (Some (length (futures (executor q))))]> (jobs q))).
Proof.
  intros Hs. unfold enqueue_job, submit, attach_future, register_job. simpl.
  rewrite Hs. simpl. rewrite lookup_insert_eq. simpl.
  unfold set_jobs. simpl. by rewrite insert_insert_eq.
Qed.

Lemma enqueue_job_closed id (func : Task) now q :
  is_shutdown (executor q) = true →
  enqueue_job id func now q
  = (Raise (RuntimeError "cannot schedule new futures after shutdown"),
     mkJobQueue (executor q)
       (<[id := mkJob "queued" f0_0 "Job queued" now None]> (jobs q))).
Proof.
  intros Hs. unfold enqueue_job, submit, register_job. simpl. by rewrite Hs.
Qed.

Lemma step_futures_bound op q : futures_bound q → futures_bound (step q op).
Proof.
  intros HI.
  destruct op as [id' f now|id'|id' st pr msg|age now| |h0 r
                 |id' now|id' f|id' h0]; cbn [step];
    intros id j h Hl Hf.
  - destruct (is_shutdown (executor q)) eqn:Hs.
    + rewrite enqueue_job_closed in * by done. simpl in *.
      destruct (decide (id = id')) as [->|Hne].
      * rewrite lookup_insert_eq in Hl. by injection Hl as <-.
      * rewrite lookup_insert_ne in Hl by done. eauto.
    + rewrite enqueue_job_open in * by done. simpl in *.
      destruct (decide (id = id')) as [->|Hne].
      * rewrite lookup_insert_eq in Hl. injection Hl as <-. simpl in Hf.
        injection Hf as <-. eexists. split; [by apply list_lookup_middle|done].
      * rewrite lookup_insert_ne in Hl by done.
        destruct (HI id j h Hl Hf) as (w & Hw & Hid).
        exists w. split; [by apply lookup_app_l_Some|done].
  - rewrite get_job_status_executor.
    destruct (decide (id = id')) as [->|Hne].
    + destruct (jobs q !! id') as [j0|] eqn:Hj0.
      * destruct (get_job_status_keeps_future id' j0 q Hj0) as (j' & Hj' & _ & Hfut).
        rewrite Hj' in Hl. injection Hl as <-. rewrite Hfut in Hf. eauto.
      * rewrite WorkerFacts.get_job_status_unknown in Hl by done. simpl in Hl.
        congruence.
    + rewrite WorkerFacts.get_job_status_other in Hl by done. eauto.
  - unfold update_job_status in *. destruct (jobs q !! id') as [j0|] eqn:Hj0;
      simpl in *; [|eauto].
    destruct (decide (id = id')) as [->|Hne].
    + rewrite lookup_insert_eq in Hl. injection Hl as <-. simpl in Hf. eauto.
    + rewrite lookup_insert_ne in Hl by done. eauto.
  - rewrite WorkerFacts.cleanup_lookup in Hl.
    destruct (jobs q !! id) as [j0|] eqn:Hj0; [|done].
    destruct (to_remove _ j0); [done|]. injection Hl as <-. simpl. eauto.
  - simpl in *. eauto.
  - rewrite WorkerFacts.worker_finish_jobs in Hl.
    destruct (HI id j h Hl Hf) as (w & Hw & Hid).
    unfold worker_finish. destruct (futures (executor q) !! h0) as [w0|] eqn:Hw0;
      [|eauto].
    destruct (done (wi_state w0)); [eauto|]. simpl.
    destruct (decide (h = h0)) as [->|Hne].
    + rewrite list_lookup_insert_eq by (by eapply lookup_lt_Some).
      eexists. split; [done|]. simpl. congruence.
    + rewrite list_lookup_insert_ne by done. eauto.
  - destruct (decide (id = id')) as [->|Hne].
    + unfold register_job in Hl. simpl in Hl.
      rewrite lookup_insert_eq in Hl. by injection Hl as <-.
    + rewrite WorkerFacts.register_job_other in Hl by done. eauto.
  - simpl in Hl. destruct (HI id j h Hl Hf) as (w & Hw & Hid).
    unfold submit. destruct (is_shutdown (executor q)); simpl; [eauto|].
    exists w. split; [by apply lookup_app_l_Some|done].
  - destruct (submitted_for id' h0 (executor q)) eqn:Hsub; [|eauto].
    unfold attach_future in *.
    destruct (jobs q !! id') as [j0|] eqn:Hj0; simpl in *; [|eauto].
    destruct (decide (id = id')) as [->|Hne].
    + rewrite lookup_insert_eq in Hl. injection Hl as <-. simpl in Hf.
      injection Hf as <-. unfold submitted_for in Hsub.
      destruct (futures (executor q) !! h0) as [w|]; [|done].
      exists w. split; [done|]. by apply String.eqb_eq.
    + rewrite lookup_insert_ne in Hl by done. eauto.
Qed.

(** X6. In every queue reached from a new one, by whatever operations in
    whatever order, the future a record holds names a work item of the
    pool, the one submitted for that very identifier: the future of a
    record is never missing from the pool and never another job's. *)
Theorem futures_bound_reachable (ops : list (Op Task)) :
  futures_bound (run ops new_queue).
Proof.
  apply (WorkerFacts.run_invariant futures_bound (λ _, true)).
  - intros q op _. apply step_futures_bound.
  - by induction ops.
  - intros id j h Hl. simpl in Hl. by rewrite lookup_empty in Hl.
Qed.

Lemma step_keeps_unbound id j op q :
  overwrites id op = false →
  jobs q !! id = Some j → future j = None → is_terminal (status j) = false →
  jobs (step q op) !! id = Some j.
Proof.
  intros Hop Hj Hf Ht.
  destruct op as [id' f now|id'|id' st pr msg|age now| |h r|id' now|id' f|id' h];
    [cbn [step]..| ].
  - simpl in Hop. apply String.eqb_neq in Hop.
    rewrite WorkerFacts.enqueue_job_other; [done|congruence].
  - destruct (decide (id = id')) as [<-|Hne].
    + unfold Worker.get_job_status. by rewrite Hj, Hf.
    + by rewrite WorkerFacts.get_job_status_other.
  - simpl in Hop. apply String.eqb_neq in Hop.
    rewrite WorkerFacts.update_job_status_other; [done|congruence].
  - rewrite WorkerFacts.cleanup_lookup, Hj. unfold to_remove. by rewrite Ht.
  - done.
  - by rewrite WorkerFacts.worker_finish_jobs.
  - simpl in Hop. apply String.eqb_neq in Hop.
    rewrite WorkerFacts.register_job_other; [done|congruence].
  - done.
  - simpl in Hop. apply String.eqb_neq in Hop.
    rewrite WorkerFacts.attach_step_other; [done|congruence].
Qed.

(** X7. After [shutdown] every [enqueue_job] raises a RuntimeError; it
    submits nothing, yet leaves a queued record without a future behind,
    and that record stays as it is: no poll, no cleanup, no completion of a
    future and no operation on another identifier changes it, and every
    poll reports the job queued. *)
Theorem enqueue_job_after_shutdown id (func : Task) now ops q :
  forallb (λ op, negb (overwrites id op)) ops = true →
  ∃ e q1,
    enqueue_job id func now (snd (shutdown q)) = (Raise e, q1)
    ∧ exc_type e = "RuntimeError"
    ∧ futures (executor q1) = futures (executor q)
    ∧ jobs (run ops q1) !! id = Some (mkJob "queued" f0_0 "Job queued" now None)
    ∧ Worker.get_job_status id (run ops q1)
      = (Return (mkStatusDict "queued" f0_0 "Job queued"), run ops q1).
Proof.
  intros Hok.
  set (j := mkJob "queued" f0_0 "Job queued" now None).
  set (q1 := mkJobQueue (executor (snd (shutdown q)))
                        (<[id := j]> (jobs (snd (shutdown q))))).
  exists (RuntimeError "cannot schedule new futures after shutdown"), q1.
  split; [by apply enqueue_job_closed|]. split; [done|]. split; [done|].
  assert (H : jobs (run ops q1) !! id = Some j).
  { apply (WorkerFacts.run_invariant (λ q', jobs q' !! id = Some j)
             (λ op, negb (overwrites id op))); [|done|].
    - intros q' op Hop Hq'. apply step_keeps_unbound; try done.
      by apply negb_true_iff.
    - subst q1. simpl. apply lookup_insert_eq. }
  split; [done|]. unfold Worker.get_job_status. by rewrite H.
Qed.

(** *** The records the queue writes *)

Lemma get_job_status_record id j q :
  jobs q !! id = Some j →
  ∃ j', jobs (snd (Worker.get_job_status id q)) !! id = Some j'
        ∧ (j' = j
           ∨ (status j' = "completed" ∧ progress j' = f1_0)
           ∨ (status j' = "failed" ∧ progress j' = f0_0)).
Proof.
  intros Hj. unfold Worker.get_job_status. rewrite Hj.
  destruct (done _ && _); [|eauto].
  destruct (result _) as [[]|e]; [|destruct (exc_is_Exception e)]; simpl.
  - rewrite lookup_insert_eq. destruct (negb _); [|eauto].
    eexists. split; [done|]. right; left. done.
  - rewrite lookup_insert_eq. eexists. split; [done|]. right; right. done.
  - eauto.
Qed.

Lemma step_queue_written op q :
  is_update op = false →
  (∀ id j, jobs q !! id = Some j → queue_written j) →
  ∀ id j, jobs (step q op) !! id = Some j → queue_written j.
Proof.
  intros Hop HI.
  destruct op as [id' f now|id'|id' st pr msg|age now| |h0 r
                 |id' now|id' f|id' h0];
    [cbn [step]..| ]; intros id j Hl; try done.
  - destruct (decide (id = id')) as [->|Hne].
    + destruct (is_shutdown (executor q)) eqn:Hs.
      * rewrite enqueue_job_closed in Hl by done. simpl in Hl.
        rewrite lookup_insert_eq in Hl. injection Hl as <-. left. done.
      * rewrite enqueue_job_open in Hl by done. simpl in Hl.
        rewrite lookup_insert_eq in Hl. injection Hl as <-. right. left.
        split; [done|]. by left.
    + rewrite WorkerFacts.enqueue_job_other in Hl by done. eauto.
  - destruct (decide (id = id')) as [->|Hne].
    + destruct (jobs q !! id') as [j0|] eqn:Hj0.
      * destruct (get_job_status_record id' j0 q Hj0) as (j' & Hj' & Hs).
        rewrite Hj' in Hl. injection Hl as <-.
        destruct Hs as [-> | [? | ?]]; [eauto | |].
        -- right; right; left; done.
        -- right; right; right; done.
      * rewrite WorkerFacts.get_job_status_unknown in Hl by done. simpl in Hl.
        congruence.
    + rewrite WorkerFacts.get_job_status_other in Hl by done. eauto.
  - rewrite WorkerFacts.cleanup_lookup in Hl.
    destruct (jobs q !! id) as [j0|] eqn:Hj0; [|done].
    destruct (to_remove _ j0); [done|]. injection Hl as <-. eauto.
  - simpl in Hl. eauto.
  - rewrite WorkerFacts.worker_finish_jobs in Hl. eauto.
  - destruct (decide (id = id')) as [->|Hne].
    + unfold register_job in Hl. simpl in Hl.
      rewrite lookup_insert_eq in Hl. injection Hl as <-. left. done.
    + rewrite WorkerFacts.register_job_other in Hl by done. eauto.
  - simpl in Hl. eauto.
  - destruct (decide (id = id')) as [->|Hne].
    + destruct (jobs q !! id') as [j0|] eqn:Hj0.
      * destruct (WorkerFacts.attach_step_status id' h0 j0 q Hj0)
          as (j' & Hj' & Hs).
        rewrite Hj' in Hl. injection Hl as <-.
        destruct Hs as [-> | (Hst & Hpr & _)]; [eauto|].
        right; left. split; [done|]. rewrite Hpr.
        destruct (HI id' j0 Hj0) as [[_ ?] | [[_ ?] | [[_ ?] | [_ ?]]]]; auto.
      * rewrite WorkerFacts.attach_step_absent in Hl by done. congruence.
    + rewrite WorkerFacts.attach_step_other in Hl by done. eauto.
Qed.

(** X8. As long as no task calls [update_job_status], the queue holds only
    records it wrote itself, however the locked blocks of the calls
    interleave: the status is queued, running, completed or failed; a
    queued or a failed record has progress 0.0, a completed one 1.0, and a
    running one 0.0, or 1.0 where the second locked block of an
    [enqueue_job] found the record completed. *)
Theorem queue_written_without_updates (ops : list (Op Task)) id j :
  forallb (λ op, negb (is_update op)) ops = true →
  jobs (run ops new_queue) !! id = Some j →
  queue_written j.
Proof.
  intros Hok. revert id j.
  apply (WorkerFacts.run_invariant
           (λ q, ∀ id j, jobs q !! id = Some j → queue_written j)
           (λ op, negb (is_update op))); [|done|].
  - intros q op Hop. apply step_queue_written. by apply negb_true_iff.
  - intros id j Hl. simpl in Hl. by rewrite lookup_empty in Hl.
Qed.

End Facts.

(** X3, on the running job ["j"]. *)
Lemma update_then_poll_witness :
  Worker.get_job_status "j"
    (snd (update_job_status "j" "running" f0_3 "Model loaded" one_running))
  = (Return (mkStatusDict "running" f0_3 "Model loaded"),
     snd (update_job_status "j" "running" f0_3 "Model loaded" one_running)).
Proof.
  apply (update_then_poll "j" "running" f0_3 "Model loaded"
           (mkJob "running" f0_0 "Job queued" 0 (Some 0%nat)) one_running);
    [reflexivity | left; reflexivity].
Defined.

(** X5, on a queue with a completed and a running job. *)
Lemma cleanup_completed_jobs_subsumes_witness :
  snd (cleanup_completed_jobs 1 7200000000
         (snd (cleanup_completed_jobs 0 7200000000 two_jobs)))
  = snd (cleanup_completed_jobs 0 7200000000 two_jobs)
  ∧ snd (cleanup_completed_jobs 0 7200000000
           (snd (cleanup_completed_jobs 1 7200000000 two_jobs)))
    = snd (cleanup_completed_jobs 0 7200000000 two_jobs).
Proof.
  apply (cleanup_completed_jobs_subsumes 0 1 7200000000 two_jobs). lia.
Defined.

(** X7, enqueueing ["k"] on the pool of [one_running] after its shutdown. *)
Lemma enqueue_job_after_shutdown_witness :
  ∃ e q1,
    enqueue_job "k" tt 4 (snd (shutdown one_running)) = (Raise e, q1)
    ∧ exc_type e = "RuntimeError"
    ∧ futures (executor q1) = futures (executor one_running)
    ∧ jobs (run idle_trace q1) !! "k"
      = Some (mkJob "queued" f0_0 "Job queued" 4 None)
    ∧ Worker.get_job_status "k" (run idle_trace q1)
      = (Return (mkStatusDict "queued" f0_0 "Job queued"), run idle_trace q1).
Proof.
  apply (enqueue_job_after_shutdown "k" tt 4%Z idle_trace one_running).
  reflexivity.
Defined.

(** X8, on the job ["j"] of [overlapping_trace]: the second locked block
    of the later call finds the record completed. *)
Lemma queue_written_without_updates_witness :
  queue_written (mkJob "running" f1_0 "Job completed" 0 (Some 1%nat)).
Proof.
  apply (queue_written_without_updates overlapping_trace "j");
    vm_compute; reflexivity.
Defined.

End WorkerMore.

(** * Further properties of the request handlers and the task *)
Module ApiMore.
Import Worker Engine Api Endpoints TaskInvariants Scenario MoreScenarios.

(** *** Validation *)

(** X10. What validation hands to the handler: the four physical
    parameters of the body, each within its bounds; alpha as given, 0.5 when
    left out, and within [0, 1] whenever it is a number; [max_temp] as
    given, whatever its value, or 4000.0 when left out; [tune_model] as
    given or false. A null stays null. *)
Theorem validate_result (b : RunBody) (p : ExperimentParams) :
  validate b = Some p →
  (b_O_F_ratio b = Value (ep_O_F_ratio p) ∧ in_range f2 f6 (ep_O_F_ratio p) = true)
  ∧ (b_pressure b = Value (ep_pressure p) ∧ in_range f1_0 f10 (ep_pressure p) = true)
  ∧ (b_temp b = Value (ep_temp p) ∧ in_range f2500 f5000 (ep_temp p) = true)
  ∧ (b_isp b = Value (ep_isp p) ∧ in_range f200 f450 (ep_isp p) = true)
  ∧ ep_alpha p = match b_alpha b with
                 | Absent => Some f0_5 | Null => None | Value a => Some a
                 end
  ∧ (∀ a, ep_alpha p = Some a → in_range f0_0 f1_0 a = true)
  ∧ ep_max_temp p = match b_max_temp b with
                    | Absent => Some f4000 | Null => None | Value x => Some x
                    end
  ∧ ep_tune_model p = match b_tune_model b with
                      | Absent => Some false | Null => None | Value x => Some x
                      end.
Proof.
  unfold validate, required_float, optional_bounded.
  destruct (b_O_F_ratio b) as [| |x1]; try done.
  destruct (in_range f2 f6 x1) eqn:H1; [|done].
  destruct (b_pressure b) as [| |x2]; try done.
  destruct (in_range f1_0 f10 x2) eqn:H2; [|done].
  destruct (b_temp b) as [| |x3]; try done.
  destruct (in_range f2500 f5000 x3) eqn:H3; [|done].
  destruct (b_isp b) as [| |x4]; try done.
  destruct (in_range f200 f450 x4) eqn:H4; [|done].
  destruct (b_alpha b) as [| |x5]; simpl;
    [| |destruct (in_range f0_0 f1_0 x5) eqn:H5; [|done]];
    intros [= <-]; simpl; repeat split; try done;
    try (by destruct (b_max_temp b)); try (by destruct (b_tune_model b)).
  - by intros a [= <-].
  - by intros a [= <-].
Qed.

Section Handlers.
Context {Model Metrics : Type}.
Implicit Types (w : World Model Metrics) (q : JobQueue ExperimentParams).

(** *** POST /run *)

Lemma run_experiment_open params job_id now enqueued w :
  experiments (w_db w) !! job_id = None →
  is_shutdown (executor (w_queue w)) = false →
  run_experiment params job_id now enqueued w
  = (Return (mkJobResponse job_id "queued" "Experiment queued successfully"),
     mkWorld
       (mkJobQueue
          (mkExecutor (futures (executor (w_queue w))
                         ++ [mkWorkItem params job_id Pending]) false)
          (<[job_id := mkJob "running" f0_0 "Job queued" enqueued
                         (Some (length (futures (executor (w_queue w)))))]>
             (jobs (w_queue w))))
       (mkDatabase (<[job_id := mkExperiment params "queued" now]>
                      (experiments (w_db w)))
                   (results (w_db w)))
       (w_cache w)).
Proof.
  intros He Hs. unfold run_experiment, commit, add_experiment, get_db. simpl.
  rewrite He. simpl. by rewrite WorkerMore.enqueue_job_open.
Qed.

(** X11. [POST /run] with a valid body, a fresh identifier and a pool that
    accepts work answers 200 with status queued. The experiment is
    persisted with the validated parameters and the time of the commit;
    the job is registered with the time [enqueue_job] read, a later
    reading of the clock, and bound to a work item of the pool that carries
    these parameters and this identifier. Results, model cache and every
    other experiment and job are untouched. *)
Theorem post_run_accepts body params job_id now enqueued w :
  validate body = Some params →
  experiments (w_db w) !! job_id = None →
  is_shutdown (executor (w_queue w)) = false →
  ∃ w',
    post_run body job_id now enqueued w
    = (Http200 (mkJobResponse job_id "queued" "Experiment queued successfully"), w')
    ∧ (∃ x, experiments (w_db w') !! job_id = Some x
            ∧ exp_params x = params ∧ exp_created_at x = now)
    ∧ (∃ j h item,
          jobs (w_queue w') !! job_id = Some j
          ∧ created_at j = enqueued ∧ future j = Some h
          ∧ futures (executor (w_queue w')) !! h = Some item
          ∧ wi_func item = params ∧ wi_job_id item = job_id)
    ∧ results (w_db w') = results (w_db w)
    ∧ w_cache w' = w_cache w
    ∧ ∀ id, id ≠ job_id →
        experiments (w_db w') !! id = experiments (w_db w) !! id
        ∧ jobs (w_queue w') !! id = jobs (w_queue w) !! id.
Proof.
  intros Hv He Hs. eexists. unfold post_run. rewrite Hv.
  rewrite run_experiment_open by done. split; [reflexivity|].
  cbn [w_db w_queue w_cache experiments results jobs executor futures].
  split; [|split; [|split; [done|split; [done|]]]].
  - eexists. by rewrite lookup_insert_eq.
  - eexists _, _, _. rewrite lookup_insert_eq. split; [done|].
    cbn [created_at future]. split; [done|]. split; [done|].
    by rewrite list_lookup_middle.
  - intros id Hne. by rewrite !lookup_insert_ne.
Qed.

(** X12. [POST /run] with an identifier that already names an experiment
    fails on the primary key of the experiments table: the answer is a
    server error, no job is enqueued and nothing is changed. *)
Theorem post_run_duplicate_id body params job_id now enqueued w :
  validate body = Some params →
  is_Some (experiments (w_db w) !! job_id) →
  ∃ e, post_run body job_id now enqueued w = (Http500 e, w)
       ∧ exc_type e = "IntegrityError".
Proof.
  intros Hv [x He]. eexists. unfold post_run. rewrite Hv.
  unfold run_experiment, commit, add_experiment, get_db. simpl.
  by rewrite He.
Qed.

(** X13. The experiment is persisted before the job is enqueued, and the
    two are not undone together: when the pool has been shut down,
    [POST /run] with a valid body answers with a server error, yet the
    experiment row stays in the database with status queued and the time
    of the commit, and the queue keeps a queued record without a future,
    with the time [enqueue_job] read; no work item was added. *)
Theorem post_run_on_closed_pool body params job_id now enqueued w :
  validate body = Some params →
  experiments (w_db w) !! job_id = None →
  is_shutdown (executor (w_queue w)) = true →
  ∃ e w',
    post_run body job_id now enqueued w = (Http500 e, w')
    ∧ exc_type e = "RuntimeError"
    ∧ experiments (w_db w') !! job_id = Some (mkExperiment params "queued" now)
    ∧ jobs (w_queue w') !! job_id
      = Some (mkJob "queued" f0_0 "Job queued" enqueued None)
    ∧ futures (executor (w_queue w')) = futures (executor (w_queue w)).
Proof.
  intros Hv He Hs. eexists _, _. unfold post_run. rewrite Hv.
  unfold run_experiment, commit, add_experiment, get_db. simpl.
  rewrite He. simpl. rewrite WorkerMore.enqueue_job_closed by done.
  split; [reflexivity|]. simpl. by rewrite !lookup_insert_eq.
Qed.

(** *** GET /status and GET /result *)

(** X14. [GET /status] answers 404 exactly when the database has no
    experiment with the identifier, whatever the queue holds. For a
    persisted experiment that the queue does not know it answers 200 with
    the status not_found and the creation time of the experiment. It never
    writes to the database or the model cache. *)
Theorem status_endpoint_follows_database job_id w :
  (experiments (w_db w) !! job_id = None ↔
   Endpoints.get_job_status job_id w = (NotFound "Job not found", w))
  ∧ (∀ experiment,
        experiments (w_db w) !! job_id = Some experiment →
        jobs (w_queue w) !! job_id = None →
        Endpoints.get_job_status job_id w
        = (Ok (mkJobStatus job_id "not_found" f0_0 "Job not found"
                           (exp_created_at experiment)), w))
  ∧ w_db (snd (Endpoints.get_job_status job_id w)) = w_db w
  ∧ w_cache (snd (Endpoints.get_job_status job_id w)) = w_cache w.
Proof.
  unfold Endpoints.get_job_status, query_experiment, get_db. simpl.
  split; [|split].
  - destruct (experiments (w_db w) !! job_id) as [x|]; [|done].
    split; [done|]. by destruct (Worker.get_job_status job_id (w_queue w)) as [[]].
  - intros x -> Hq. rewrite WorkerFacts.get_job_status_unknown by done.
    by destruct w.
  - destruct (experiments (w_db w) !! job_id) as [x|]; [|done].
    by destruct (Worker.get_job_status job_id (w_queue w)) as [[]].
Qed.

(** X15. [GET /result] answers 404 exactly when there is no result row.
    A body it returns carries the status and completion time of that row,
    the payload only for the status completed and the error text only for
    the status failed, never both. When the result row is there and the
    experiment row is not, the handler fails instead of answering. *)
Theorem result_endpoint_exclusive job_id w :
  (results (w_db w) !! job_id = None ↔
   get_job_result job_id w = NotFound "Result not found")
  ∧ (∀ body,
        get_job_result job_id w = Ok body →
        (∃ result experiment,
            results (w_db w) !! job_id = Some result
            ∧ experiments (w_db w) !! job_id = Some experiment
            ∧ jres_status body = r_status result
            ∧ jres_completed_at body = r_completed_at result
            ∧ jres_created_at body = exp_created_at experiment)
        ∧ (is_Some (jres_results body) → jres_status body = "completed")
        ∧ (is_Some (jres_error body) → jres_status body = "failed")
        ∧ ¬ (is_Some (jres_results body) ∧ is_Some (jres_error body)))
  ∧ (is_Some (results (w_db w) !! job_id) →
     experiments (w_db w) !! job_id = None →
     ∃ e, get_job_result job_id w = Fault e).
Proof.
  unfold get_job_result, query_experiment, get_db. simpl.
  split; [|split].
  - destruct (results (w_db w) !! job_id) as [r|]; [|done].
    split; [done|]. by destruct (experiments (w_db w) !! job_id).
  - intros body.
    destruct (results (w_db w) !! job_id) as [r|]; [|done].
    destruct (experiments (w_db w) !! job_id) as [x|]; [|done].
    intros [= <-]. simpl. split; [by exists r, x|].
    destruct (String.eqb (r_status r) "completed") eqn:Hc;
      destruct (String.eqb (r_status r) "failed") eqn:Hf; simpl.
    all: try apply String.eqb_eq in Hc; try apply String.eqb_eq in Hf.
    1: congruence.
    all: split; [|split]; try done;
      try (intros H; by apply is_Some_None in H);
      intros [H1 H2];
      first [by apply is_Some_None in H1 | by apply is_Some_None in H2].
  - intros [r ->] ->. eauto.
Qed.

(** X23. A cleanup forgets a job in the queue only. After a cleanup
    that removes the record of a job whose experiment is persisted,
    [GET /status] answers 200 with the status not_found, while
    [GET /result] answers exactly as before the cleanup. *)
Theorem cleanup_keeps_result job_id age now j experiment w :
  jobs (w_queue w) !! job_id = Some j →
  to_remove (cutoff_time age now) j = true →
  experiments (w_db w) !! job_id = Some experiment →
  let w' := mkWorld (snd (cleanup_completed_jobs age now (w_queue w)))
                    (w_db w) (w_cache w) in
  Endpoints.get_job_status job_id w'
  = (Ok (mkJobStatus job_id "not_found" f0_0 "Job not found"
                     (exp_created_at experiment)), w')
  ∧ get_job_result job_id w' = get_job_result job_id w.
Proof.
  intros Hj Hrm Hx w'. split; [|done].
  unfold Endpoints.get_job_status, query_experiment, get_db.
  cbn [w_db store w_queue w_cache w'].
  rewrite Hx. rewrite WorkerFacts.get_job_status_unknown; [done|].
  by rewrite WorkerFacts.cleanup_lookup, Hj, Hrm.
Qed.

End Handlers.

Section Task.
Context {Model Metrics : Type}.
Variable predict : Model -> Row -> PyResult float.
Variable minimize : MinimizeCall -> PyResult OptimizeResult.
Variable train : PyResult (Model * Metrics).
Implicit Types (w : World Model Metrics) (q : JobQueue ExperimentParams)
  (s : TaskState Model Metrics).

(** *** From submission to result *)

(** The world after an accepted [POST /run], after the task ran at time
    [now'] and after its worker thread set the future. *)
Lemma submit_and_run body params job_id now enqueued now' w :
  validate body = Some params →
  experiments (w_db w) !! job_id = None →
  results (w_db w) !! job_id = None →
  is_shutdown (executor (w_queue w)) = false →
  ∃ q1 c1 j1,
    jobs q1 !! job_id = Some j1
    ∧ _run_experiment_task predict minimize train job_id params now'
        (snd (post_run body job_id now enqueued w))
      = match pipeline predict minimize train (w_cache w) params with
        | Return res =>
            (Return tt,
             mkWorld
               (snd (update_job_status job_id "completed" f1_0
                       "Experiment completed successfully" q1))
               (mkDatabase
                  (<[job_id := mkExperiment params "completed" now]>
                     (experiments (w_db w)))
                  (<[job_id := mkResult "completed" (Some res) None (Some now')]>
                     (results (w_db w))))
               c1)
        | Raise e =>
            if exc_is_Exception e then
              (Return tt,
               mkWorld
                 (snd (update_job_status job_id "failed" f0_0
                         ("Experiment failed: " +:+ exc_str e) q1))
                 (mkDatabase
                    (<[job_id := mkExperiment params "failed" now]>
                       (experiments (w_db w)))
                    (<[job_id := mkResult "failed" None (Some (exc_str e)) (Some now')]>
                       (results (w_db w))))
                 c1)
            else (Raise e, mkWorld q1 (w_db (snd (post_run body job_id now enqueued w))) c1)
        end.
Proof.
  intros Hv He Hr Hs. unfold post_run. rewrite Hv.
  rewrite run_experiment_open by done. cbn [snd].
  match goal with |- context [_run_experiment_task _ _ _ _ _ _ ?w1] =>
    destruct (ApiFacts.run_experiment_task_run predict minimize train
                job_id params now' w1 (mkExperiment params "queued" now))
      as (q1 & c1 & Hdom & Hrun)
  end.
  { simpl. apply lookup_insert_eq. }
  { done. }
  destruct (proj2 (Hdom job_id)) as [j1 Hj1].
  { simpl. rewrite lookup_insert_eq. eauto. }
  exists q1, c1, j1. split; [done|]. rewrite Hrun. simpl.
  by rewrite !alter_insert_eq.
Qed.

(** X16. From submission to result, when the computation returns: after
    an accepted [POST /run], the run of the task and the end of its worker
    thread, [GET /status] reports the job completed with progress 1.0, the
    task's own closing message and the creation time of the submission,
    and [GET /result] returns the payload the task computed, no error, and
    the time the task finished. *)
Theorem submit_run_poll_completed body params job_id now enqueued now' w res :
  validate body = Some params →
  experiments (w_db w) !! job_id = None →
  results (w_db w) !! job_id = None →
  is_shutdown (executor (w_queue w)) = false →
  pipeline predict minimize train (w_cache w) params = Return res →
  let out := _run_experiment_task predict minimize train job_id params now'
               (snd (post_run body job_id now enqueued w)) in
  let w2 := finish_task (length (futures (executor (w_queue w))))
                        (fst out) (snd out) in
  fst out = Return tt
  ∧ Endpoints.get_job_status job_id w2
    = (Ok (mkJobStatus job_id "completed" f1_0
                       "Experiment completed successfully" now), w2)
  ∧ get_job_result job_id w2
    = Ok (mkJobResult job_id "completed" (Some res) None now (Some now')).
Proof.
  intros Hv He Hr Hs Hp.
  destruct (submit_and_run body params job_id now enqueued now' w Hv He Hr Hs)
    as (q1 & c1 & j1 & Hj1 & Hrun).
  rewrite Hp in Hrun. cbv zeta. rewrite Hrun. cbn [fst snd].
  split; [done|]. split.
  - unfold Endpoints.get_job_status, finish_task, query_experiment, get_db.
    cbn [w_db w_queue w_cache store experiments].
    rewrite lookup_insert_eq.
    rewrite (WorkerFacts.get_job_status_terminal job_id
               (mkJob "completed" f1_0 "Experiment completed successfully"
                      (created_at j1) (future j1))); [done| |done].
    rewrite WorkerFacts.worker_finish_jobs.
    by apply ApiFacts.update_job_status_lookup.
  - unfold get_job_result, finish_task, query_experiment, get_db.
    cbn [w_db store experiments results].
    by rewrite !lookup_insert_eq.
Qed.

(** X17. From submission to result, when the computation raises a fault
    of class [Exception]: the task still returns, [GET /status] reports
    the job failed with progress 0.0 and the fault's text in the message,
    and [GET /result] returns that text as the error and no payload. *)
Theorem submit_run_poll_failed body params job_id now enqueued now' w e :
  validate body = Some params →
  experiments (w_db w) !! job_id = None →
  results (w_db w) !! job_id = None →
  is_shutdown (executor (w_queue w)) = false →
  pipeline predict minimize train (w_cache w) params = Raise e →
  exc_is_Exception e = true →
  let out := _run_experiment_task predict minimize train job_id params now'
               (snd (post_run body job_id now enqueued w)) in
  let w2 := finish_task (length (futures (executor (w_queue w))))
                        (fst out) (snd out) in
  fst out = Return tt
  ∧ Endpoints.get_job_status job_id w2
    = (Ok (mkJobStatus job_id "failed" f0_0
                       ("Experiment failed: " +:+ exc_str e) now), w2)
  ∧ get_job_result job_id w2
    = Ok (mkJobResult job_id "failed" None (Some (exc_str e)) now (Some now')).
Proof.
  intros Hv He Hr Hs Hp Hexc.
  destruct (submit_and_run body params job_id now enqueued now' w Hv He Hr Hs)
    as (q1 & c1 & j1 & Hj1 & Hrun).
  rewrite Hp, Hexc in Hrun. cbv zeta. rewrite Hrun. cbn [fst snd].
  split; [done|]. split.
  - unfold Endpoints.get_job_status, finish_task, query_experiment, get_db.
    cbn [w_db w_queue w_cache store experiments].
    rewrite lookup_insert_eq.
    rewrite (WorkerFacts.get_job_status_terminal job_id
               (mkJob "failed" f0_0 ("Experiment failed: " +:+ exc_str e)
                      (created_at j1) (future j1))); [done| |done].
    rewrite WorkerFacts.worker_finish_jobs.
    by apply ApiFacts.update_job_status_lookup.
  - unfold get_job_result, finish_task, query_experiment, get_db.
    cbn [w_db store experiments results].
    by rewrite !lookup_insert_eq.
Qed.

(** *** A result is written once *)

#[local] Opaque optimize_fuel_mixture simulate update_job_status.

(** Runs the handler to its end on a session whose result row is taken. *)
Ltac handler_fails Hres :=
  unfold task_except, mbind, M_bind, bind, on_session, first_experiment,
    query_experiment, set_experiment_status, commit; simpl;
  destruct (experiments _ !! _); simpl; rewrite ?Hres; simpl; eauto.

(** X20. A result is never replaced. When the database already holds a
    Result for the job, a run of the task neither changes that row nor
    adds one, leaves the experiment rows as they are, and ends by raising:
    the commit fails on the primary key of the results table, in the
    [try] block or else in the handler, and a handler entered after a
    failed commit fails on the session. *)
Theorem run_experiment_task_keeps_result job_id params now w r :
  results (w_db w) !! job_id = Some r →
  w_db (snd (_run_experiment_task predict minimize train job_id params now w))
  = w_db w
  ∧ ∃ e, fst (_run_experiment_task predict minimize train job_id params now w)
         = Raise e.
Proof.
  destruct w as [q db cache]. simpl. intros Hres.
  unfold _run_experiment_task, try_except, task_try, get_db.
  unfold mbind, M_bind, bind.
  rewrite ApiFacts.job_queue_update_run. simpl.
  unfold get_or_train_model. simpl.
  destruct cache as [[model metrics]|]; [|destruct train as [[model metrics]|e]].
  3: { destruct (exc_is_Exception e); simpl; [|eauto]. handler_fails Hres. }
  all: rewrite ApiFacts.job_queue_update_run; simpl; unfold lift.
  all: destruct (simulate predict _ model) as [sim|e].
  2,4: destruct (exc_is_Exception e); simpl; [|eauto]; handler_fails Hres.
  all: rewrite ApiFacts.job_queue_update_run; simpl.
  all: destruct (ep_alpha params) as [alpha|]; simpl.
  1,3: destruct (snd (optimize_fuel_mixture predict minimize model alpha _))
         as [o|e]; simpl.
  2,4: destruct (exc_is_Exception e); simpl; [|eauto]; handler_fails Hres.
  all: rewrite ApiFacts.job_queue_update_run; simpl.
  all: unfold on_session, first_experiment, query_experiment,
         set_experiment_status, commit; simpl.
  all: destruct (experiments db !! job_id) eqn:Hexp; simpl; rewrite ?Hres; simpl.
  all: unfold task_except, mbind, M_bind, bind, on_session, first_experiment,
         query_experiment, set_experiment_status, commit; simpl.
  all: rewrite ?Hexp; simpl; rewrite ?Hres; simpl; eauto.
Qed.

#[local] Transparent optimize_fuel_mixture simulate update_job_status.

(** *** What a task writes *)

Lemma insert_all_other {V : Type} (job_id : string) (rows : list (string * V))
    (t t' : gmap string V) :
  Forall (λ kv, fst kv = job_id) rows →
  insert_all rows t = Some t' →
  ∀ id, id ≠ job_id → t' !! id = t !! id.
Proof.
  revert t. induction rows as [|[k v] rows IH]; intros t Hk; simpl.
  - by intros [= <-].
  - apply Forall_cons in Hk as [Hk Hrows]. simpl in Hk. subst k.
    destruct (t !! job_id); [done|]. intros Hins id Hne.
    rewrite (IH _ Hrows Hins id Hne). by rewrite lookup_insert_ne.
Qed.

Lemma apply_dirty_other (job_id : string) (d : list (string * string))
    (t : gmap string Experiment) :
  Forall (λ kv, fst kv = job_id) d →
  ∀ id, id ≠ job_id → apply_dirty d t !! id = t !! id.
Proof.
  unfold apply_dirty. revert t. induction d as [|[k st] d IH]; intros t Hk id Hne;
    simpl; [done|].
  apply Forall_cons in Hk as [Hk Hd]. simpl in Hk. subst k.
  rewrite (IH _ Hd id Hne). by rewrite lookup_alter_ne.
Qed.

Lemma update_job_status_executor id st pr msg q :
  executor (snd (update_job_status id st pr msg q)) = executor q.
Proof. unfold update_job_status. by destruct (jobs q !! id). Qed.

Section Invariant.
Variables (job_id : string) (w : World Model Metrics).

Lemma bind_writes_only {A B : Type} (m : M A) (k : A → M B) s :
  (∀ s, writes_only job_id w s → writes_only job_id w (snd (m s))) →
  (∀ a s, writes_only job_id w s → writes_only job_id w (snd (k a s))) →
  writes_only job_id w s → writes_only job_id w (snd (bind m k s)).
Proof.
  intros Hm Hk Hs. unfold bind. specialize (Hm s Hs).
  destruct (m s) as [[a|e] s']; simpl in *; [by apply Hk | done].
Qed.

Lemma job_queue_update_writes_only st pr msg s :
  writes_only job_id w s → writes_only job_id w (snd (job_queue_update job_id st pr msg s)).
Proof.
  intros (He & Hj & Hrest). rewrite ApiFacts.job_queue_update_run.
  unfold writes_only. cbn [snd ts_queue ts_session ts_cache].
  split; [by rewrite update_job_status_executor|]. split; [|done].
  intros id Hne. rewrite WorkerFacts.update_job_status_other by done. by apply Hj.
Qed.

Lemma get_or_train_model_writes_only s :
  writes_only job_id w s → writes_only job_id w (snd (get_or_train_model train s)).
Proof.
  intros Hs. unfold get_or_train_model.
  destruct (ts_cache s) as [[m x]|]; [done|].
  by destruct train as [[m x]|e].
Qed.

Lemma cached_metrics_writes_only s : writes_only job_id w s → writes_only job_id w (snd (cached_metrics s)).
Proof. intros Hs. unfold cached_metrics. by destruct (ts_cache s) as [[m x]|]. Qed.

Lemma add_result_writes_only (r : Result Metrics) s :
  writes_only job_id w s → writes_only job_id w (snd (on_session (λ d, (Return tt, add_result job_id r d)) s)).
Proof.
  intros (He & Hj & Hx & Hr & Hne & Hnr & Hd). unfold on_session. simpl.
  repeat split; try done. apply Forall_app. split; [done|].
  by apply Forall_singleton.
Qed.

Lemma set_experiment_status_writes_only x st s :
  writes_only job_id w s → writes_only job_id w (snd (on_session (set_experiment_status job_id x st) s)).
Proof.
  intros (He & Hj & Hx & Hr & Hne & Hnr & Hd).
  unfold on_session, set_experiment_status. destruct x; simpl; [|done].
  repeat split; try done. apply Forall_app. split; [done|].
  by apply Forall_singleton.
Qed.

Lemma first_experiment_writes_only s :
  writes_only job_id w s →
  writes_only job_id w (snd (on_session (first_experiment job_id) s)).
Proof.
  intros Hs. unfold on_session, first_experiment.
  destruct s as [q d c]. simpl. by destruct (inactive d), d.
Qed.

Lemma commit_writes_only s : writes_only job_id w s → writes_only job_id w (snd (on_session commit s)).
Proof.
  intros (He & Hj & Hx & Hr & Hne & Hnr & Hd). unfold on_session, commit.
  destruct (inactive (ts_session s)) eqn:Hia.
  { destruct s as [q d c]. simpl in *. by destruct d. }
  rewrite Hne. cbn [insert_all].
  destruct (insert_all (new_results (ts_session s)) _) as [rs|] eqn:Hins;
    unfold writes_only;
    cbn [snd ts_queue ts_session ts_cache store experiments results
         new_experiments new_results dirty].
  - repeat split; try done.
    + intros id Hid. rewrite (apply_dirty_other job_id) by done. by apply Hx.
    + intros id Hid. rewrite (insert_all_other _ _ _ _ Hnr Hins id Hid). by apply Hr.
  - repeat split; done.
Qed.

Lemma task_try_writes_only params now s :
  writes_only job_id w s → writes_only job_id w (snd (task_try predict minimize train job_id params now s)).
Proof.
  unfold task_try, mbind, M_bind. revert s.
  repeat first
    [ apply job_queue_update_writes_only
    | apply get_or_train_model_writes_only
    | apply cached_metrics_writes_only
    | apply add_result_writes_only
    | apply first_experiment_writes_only
    | apply set_experiment_status_writes_only
    | apply commit_writes_only
    | (intros s Hs; apply bind_writes_only; [| |exact Hs]; clear s Hs)
    | (intros ? s Hs; apply bind_writes_only; [| |exact Hs]; clear s Hs)
    | (intros _; apply job_queue_update_writes_only)
    | (intros ? ? ? ; done)
    | (intros ? ? ; done)
    | destruct (ep_alpha params) ].
Qed.

Lemma task_except_writes_only now e s :
  writes_only job_id w s → writes_only job_id w (snd (task_except job_id now e s)).
Proof.
  unfold task_except, mbind, M_bind. revert s.
  repeat first
    [ apply job_queue_update_writes_only
    | apply add_result_writes_only
    | apply first_experiment_writes_only
    | apply set_experiment_status_writes_only
    | apply commit_writes_only
    | (intros s Hs; apply bind_writes_only; [| |exact Hs]; clear s Hs)
    | (intros ? s Hs; apply bind_writes_only; [| |exact Hs]; clear s Hs)
    | (intros _; apply job_queue_update_writes_only)
    | (intros ? ? ? ; done)
    | (intros ? ? ; done) ].
Qed.

End Invariant.

(** X19. A task writes only what belongs to its own job: whatever the
    computation does and however the task ends, the pool is as before, and
    the record, the experiment row and the result row of every other
    identifier are as before. *)
Theorem run_experiment_task_writes_own job_id params now w :
  executor (w_queue (snd (_run_experiment_task predict minimize train
                            job_id params now w)))
  = executor (w_queue w)
  ∧ ∀ id, id ≠ job_id →
      jobs (w_queue (snd (_run_experiment_task predict minimize train
                            job_id params now w))) !! id
      = jobs (w_queue w) !! id
      ∧ experiments (w_db (snd (_run_experiment_task predict minimize train
                                  job_id params now w))) !! id
        = experiments (w_db w) !! id
      ∧ results (w_db (snd (_run_experiment_task predict minimize train
                              job_id params now w))) !! id
        = results (w_db w) !! id.
Proof.
  set (s0 := mkTaskState (w_queue w) (get_db (w_db w)) (w_cache w)).
  assert (H0 : writes_only job_id w s0) by (repeat split; done).
  assert (H : writes_only job_id w
                (snd (try_except (task_try predict minimize train job_id params now)
                                 (task_except job_id now) s0))).
  { unfold try_except.
    pose proof (task_try_writes_only job_id w params now s0 H0) as Ht.
    destruct (task_try _ _ _ _ _ _ s0) as [[a|e] s1]; simpl in *; [done|].
    destruct (exc_is_Exception e); [|done].
    by apply task_except_writes_only. }
  unfold _run_experiment_task. fold s0.
  destruct (try_except _ _ s0) as [r s]. simpl in *.
  destruct H as (He & Hj & Hx & Hr & _). split; [done|].
  intros id Hne. split; [by apply Hj|]. split; [by apply Hx | by apply Hr].
Qed.

End Task.

(** X10, on a body that gives every field. *)
Lemma validate_result_witness :
  in_range f2 f6 (float_lit 7 2) = true
  ∧ ep_alpha (mkExperimentParams (float_lit 7 2) (float_of_Z 5) f3000 f300
                (Some f1_0) (Some f10) (Some true)) = Some f1_0
  ∧ ep_max_temp (mkExperimentParams (float_lit 7 2) (float_of_Z 5) f3000 f300
                   (Some f1_0) (Some f10) (Some true)) = Some f10.
Proof.
  destruct (validate_result full_body
              (mkExperimentParams (float_lit 7 2) (float_of_Z 5) f3000 f300
                 (Some f1_0) (Some f10) (Some true))
              ltac:(vm_compute; reflexivity))
    as ((_ & H1) & _ & _ & _ & Ha & _ & Hm & _).
  exact (conj H1 (conj Ha Hm)).
Defined.

(** X11, on a second submission, ["k"], to a world that holds ["j"]. *)
Lemma post_run_accepts_witness :
  ∃ w',
    post_run valid_body "k" 7 8 submitted_world
    = (Http200 (mkJobResponse "k" "queued" "Experiment queued successfully"), w')
    ∧ (∃ x, experiments (w_db w') !! "k" = Some x
            ∧ exp_params x = valid_params ∧ exp_created_at x = 7%Z)
    ∧ (∃ j h item,
          jobs (w_queue w') !! "k" = Some j
          ∧ created_at j = 8%Z ∧ future j = Some h
          ∧ futures (executor (w_queue w')) !! h = Some item
          ∧ wi_func item = valid_params ∧ wi_job_id item = "k")
    ∧ results (w_db w') = results (w_db submitted_world)
    ∧ w_cache w' = w_cache submitted_world
    ∧ ∀ id, id ≠ "k" →
        experiments (w_db w') !! id = experiments (w_db submitted_world) !! id
        ∧ jobs (w_queue w') !! id = jobs (w_queue submitted_world) !! id.
Proof.
  apply (post_run_accepts valid_body valid_params "k" 7%Z 8%Z submitted_world);
    vm_compute; reflexivity.
Defined.

(** X12, submitting the identifier ["j"] a second time. *)
Lemma post_run_duplicate_id_witness :
  ∃ e, post_run valid_body "j" 7 8 submitted_world = (Http500 e, submitted_world)
       ∧ exc_type e = "IntegrityError".
Proof.
  apply (post_run_duplicate_id valid_body valid_params "j" 7%Z 8%Z submitted_world).
  - vm_compute; reflexivity.
  - eexists. vm_compute. reflexivity.
Defined.

(** X13, on a world whose pool was shut down. *)
Lemma post_run_on_closed_pool_witness :
  ∃ e w',
    post_run valid_body "j" 0 1 closed_world = (Http500 e, w')
    ∧ exc_type e = "RuntimeError"
    ∧ experiments (w_db w') !! "j" = Some (mkExperiment valid_params "queued" 0)
    ∧ jobs (w_queue w') !! "j" = Some (mkJob "queued" f0_0 "Job queued" 1 None)
    ∧ futures (executor (w_queue w')) = futures (executor (w_queue closed_world)).
Proof.
  apply (post_run_on_closed_pool valid_body valid_params "j" 0%Z 1%Z closed_world);
    vm_compute; reflexivity.
Defined.

(** X23, on [completed_world] and a cleanup two hours later. *)
Lemma cleanup_keeps_result_witness :
  get_job_result "j"
    (mkWorld (snd (cleanup_completed_jobs 1 7200000000 (w_queue completed_world)))
             (w_db completed_world) (w_cache completed_world))
  = get_job_result "j" completed_world.
Proof.
  exact (proj2 (cleanup_keeps_result "j" 1%Z 7200000000%Z
                  (mkJob "completed" f1_0 "Experiment completed successfully" 1
                         (Some 0%nat))
                  (mkExperiment valid_params "completed" 0) completed_world
                  ltac:(vm_compute; reflexivity) ltac:(vm_compute; reflexivity)
                  ltac:(vm_compute; reflexivity))).
Defined.

(** X16, on [completed_world]. *)
Lemma submit_run_poll_completed_witness :
  Endpoints.get_job_status "j" completed_world
  = (Ok (mkJobStatus "j" "completed" f1_0 "Experiment completed successfully" 0),
     completed_world).
Proof.
  destruct (pipeline const_predict minimize_gives_up train_once
              (w_cache empty_world) valid_params) as [res|e] eqn:Hp;
    [|vm_compute in Hp; discriminate Hp].
  exact (proj1 (proj2 (submit_run_poll_completed const_predict minimize_gives_up
                         train_once valid_body valid_params "j" 0%Z 1%Z 5%Z
                         empty_world res
                         ltac:(vm_compute; reflexivity) ltac:(vm_compute; reflexivity)
                         ltac:(vm_compute; reflexivity) ltac:(vm_compute; reflexivity)
                         Hp))).
Defined.

(** X17, on a model whose inference raises a ValueError. *)
Lemma submit_run_poll_failed_witness :
  get_job_result "j"
    (finish_task 0
       (fst (_run_experiment_task failing_predict minimize_gives_up train_once
               "j" valid_params 5 submitted_world))
       (snd (_run_experiment_task failing_predict minimize_gives_up train_once
               "j" valid_params 5 submitted_world)))
  = Ok (mkJobResult "j" "failed" None (Some "bad input") 0 (Some 5%Z)).
Proof.
  exact (proj2 (proj2 (submit_run_poll_failed failing_predict minimize_gives_up
                         train_once valid_body valid_params "j" 0%Z 1%Z 5%Z
                         empty_world ValueError
                         ltac:(vm_compute; reflexivity) ltac:(vm_compute; reflexivity)
                         ltac:(vm_compute; reflexivity) ltac:(vm_compute; reflexivity)
                         ltac:(vm_compute; reflexivity) ltac:(reflexivity)))).
Defined.

(** X20, running the task of ["j"] again on [completed_world]. *)
Lemma run_experiment_task_keeps_result_witness :
  w_db (snd (_run_experiment_task const_predict minimize_gives_up train_once
               "j" valid_params 8 completed_world))
  = w_db completed_world
  ∧ ∃ e, fst (_run_experiment_task const_predict minimize_gives_up train_once
                "j" valid_params 8 completed_world) = Raise e.
Proof.
  destruct (results (w_db completed_world) !! "j") as [r|] eqn:Hr;
    [|vm_compute in Hr; discriminate Hr].
  exact (run_experiment_task_keeps_result const_predict minimize_gives_up
           train_once "j" valid_params 8%Z completed_world r Hr).
Defined.

End ApiMore.
